(** * filemanager_ftp: the interactive FTP / local file-manager shell

    A shallow embedding of [src/main.cpp] and the properties of its
    path state, listing parser, size formatter, listing order and
    read loop.

    Conventions of the embedding.
    - [std::string] is [string]; a [size_t] is a [Z] in [0, 2^64) and
      unsigned wrap-around is written out ([size_sub]).
    - An operation whose C++ precondition can be violated, or which can
      throw, returns a [result]: [Ok v], [Undefined] (undefined
      behaviour) or [Throw e] (a C++ exception leaving the function).
    - libcurl and [std::filesystem] are external collaborators; they
      appear as the fields of a [collaborators] record over an abstract
      world state. *)

From Stdlib Require Import ZArith NArith QArith Qround Bool List String Ascii Lia.
From Stdlib Require Import Permutation Sorted DecimalString.
Import ListNotations.

Local Open Scope string_scope.
Local Open Scope Z_scope.

(** ** Outcomes of C++ evaluation *)

Inductive exn : Type :=
| out_of_range       (* std::out_of_range *)
| invalid_argument.  (* std::invalid_argument *)

Inductive result (A : Type) : Type :=
| Ok (a : A)
| Undefined
| Throw (e : exn).

Arguments Ok {A} a.
Arguments Undefined {A}.
Arguments Throw {A} e.

Definition bind {A B : Type} (m : result A) (f : A -> result B) : result B :=
  match m with
  | Ok a => f a
  | Undefined => Undefined
  | Throw e => Throw e
  end.

Notation "x <- m ;; k" := (bind m (fun x => k))
  (at level 61, m at next level, right associativity).

(** ** The part of [std::string] the program uses *)

Module Str.

Definition size_max : Z := 2 ^ 64.

(** [std::string::npos], the largest [size_t]. *)
Definition npos : Z := size_max - 1.

Definition size (s : string) : Z := Z.of_nat (String.length s).

(** Unsigned subtraction on [size_t]. *)
Definition size_sub (a b : Z) : Z := (a - b) mod size_max.

(** [s.back()]: the last character; the behaviour is undefined on the
    empty string. *)
Fixpoint back (s : string) : result ascii :=
  match s with
  | EmptyString => Undefined
  | String c EmptyString => Ok c
  | String _ s' => back s'
  end.

(** [s.front()]. *)
Definition front (s : string) : result ascii :=
  match s with
  | EmptyString => Undefined
  | String c _ => Ok c
  end.

Fixpoint rfind_upto (s : string) (c : ascii) (i pos acc : Z) : Z :=
  match s with
  | EmptyString => acc
  | String a s' =>
      rfind_upto s' c (i + 1) pos
                 (if (i <=? pos) && Ascii.eqb a c then i else acc)
  end.

(** [s.find_last_of(c, pos)]: the largest index [i <= pos] with
    [s[i] == c], or [npos]. *)
Definition find_last_of (s : string) (c : ascii) (pos : Z) : Z :=
  rfind_upto s c 0 pos npos.

(** [s.substr(0, n)]; position 0 is never out of range. *)
Definition substr0 (s : string) (n : Z) : string :=
  String.substring 0 (Z.to_nat n) s.

Fixpoint mem (c : ascii) (s : string) : bool :=
  match s with
  | EmptyString => false
  | String a s' => Ascii.eqb a c || mem c s'
  end.

(** Every character of [s] satisfies [p]. *)
Fixpoint all (p : ascii -> bool) (s : string) : bool :=
  match s with
  | EmptyString => true
  | String a s' => p a && all p s'
  end.

(** Number of copies of [c] at the end of [s]. *)
Fixpoint trailing (c : ascii) (s : string) : nat :=
  match s with
  | EmptyString => O
  | String a s' =>
      if Ascii.eqb a c
      then (if Nat.eqb (trailing c s') (String.length s')
            then S (trailing c s') else trailing c s')
      else trailing c s'
  end.

End Str.

(** ** std::stoull *)

Module Conv.

(** [isspace] in the "C" locale. *)
Definition isspace (c : ascii) : bool :=
  let n := N_of_ascii c in
  (n =? 32)%N || ((9 <=? n)%N && (n <=? 13)%N).

Definition isdigit (c : ascii) : bool :=
  let n := N_of_ascii c in (48 <=? n)%N && (n <=? 57)%N.

Definition digit_value (c : ascii) : Z := Z.of_N (N_of_ascii c) - 48.

(** A byte below 0x80: a plain [char] that is not negative. *)
Definition isascii (c : ascii) : bool := (N_of_ascii c <? 128)%N.

Fixpoint skip_space (s : string) : string :=
  match s with
  | String c s' => if isspace c then skip_space s' else s
  | EmptyString => s
  end.

(** The value of the longest prefix of decimal digits, [None] when the
    prefix is empty. *)
Fixpoint digits (s : string) (acc : option Z) : option Z :=
  match s with
  | String c s' =>
      if isdigit c
      then digits s' (Some (10 * match acc with Some a => a | None => 0 end
                            + digit_value c))
      else acc
  | EmptyString => acc
  end.

(** The number a string of digits writes, continuing from [acc]. *)
Fixpoint decimal (s : string) (acc : Z) : Z :=
  match s with
  | String c s' => decimal s' (10 * acc + digit_value c)
  | EmptyString => acc
  end.

Definition ULLONG_MAX : Z := 2 ^ 64 - 1.

(** [std::stoull(str)] in base 10: leading white space, an optional
    sign, then digits; [std::invalid_argument] when there is no digit,
    [std::out_of_range] when the magnitude exceeds [ULLONG_MAX]. *)
Definition stoull (str : string) : result Z :=
  let s1 := skip_space str in
  let '(neg, s2) :=
    match s1 with
    | String c r =>
        if Ascii.eqb c "-" then (true, r)
        else if Ascii.eqb c "+" then (false, r)
        else (false, s1)
    | EmptyString => (false, s1)
    end in
  match digits s2 None with
  | None => Throw invalid_argument
  | Some v =>
      if ULLONG_MAX <? v then Throw out_of_range
      else Ok (if neg then (2 ^ 64 - v) mod 2 ^ 64 else v)
  end.

End Conv.

(** ** std::regex: the backtracking matcher on the constructs the
       listing pattern uses

    Every quantifier of the pattern is a greedy [+] on one character
    class, so [Plus] takes a class.  [exec] tries alternatives in the
    ECMAScript priority order (longest repetition first) and the first
    complete match decides the sub-matches. *)

Module Regex.

Definition charset : Type := ascii -> bool.

Inductive t : Type :=
| Eps
| Plus (cs : charset)
| Cat (r1 r2 : t)
| Group (n : nat) (r : t).

(** Sub-matches by group number. *)
Definition smatch : Type := list (nat * string).

Fixpoint sub (m : smatch) (n : nat) : string :=
  match m with
  | [] => ""
  | (k, s) :: m' => if Nat.eqb k n then s else sub m' n
  end.

Fixpoint plus_k {A : Type} (cs : charset) (s : string)
         (k : string -> option A) : option A :=
  match s with
  | String c s' =>
      if cs c then
        match plus_k cs s' k with
        | Some r => Some r
        | None => k s'
        end
      else None
  | EmptyString => None
  end.

Fixpoint exec (r : t) (s : string) (m : smatch)
         (k : string -> smatch -> option smatch) : option smatch :=
  match r with
  | Eps => k s m
  | Plus cs => plus_k cs s (fun s' => k s' m)
  | Cat r1 r2 => exec r1 s m (fun s' m' => exec r2 s' m' k)
  | Group n r1 =>
      exec r1 s m
           (fun s' m' =>
              k s' ((n, String.substring 0 (String.length s - String.length s') s)
                      :: m'))
  end.

(** [std::regex_match]: the whole input must be consumed. *)
Definition regex_match (s : string) (r : t) : option smatch :=
  exec r s [] (fun rest m => match rest with
                             | EmptyString => Some m
                             | _ => None
                             end).

Fixpoint seq (rs : list t) : t :=
  match rs with
  | [] => Eps
  | r :: rs' => Cat r (seq rs')
  end.

(** [s] is a non-empty run of characters of the class. *)
Definition run_of (cs : charset) (s : string) : Prop :=
  s <> "" /\ Str.all cs s = true.

(** [s] is empty or starts with a character outside the class. *)
Definition starts_outside (cs : charset) (s : string) : bool :=
  match s with
  | EmptyString => true
  | String c _ => negb (cs c)
  end.

(** Character classes. *)
Definition one_of (chars : string) : charset := fun c => Str.mem c chars.
Definition space : charset := Conv.isspace.                        (* \s *)
Definition non_space : charset := fun c => negb (Conv.isspace c).  (* [^\s] *)
Definition digit : charset := Conv.isdigit.                        (* \d, [0-9] *)
(** [.]: any character but a line terminator. *)
Definition any : charset :=
  fun c => negb (Ascii.eqb c "010") && negb (Ascii.eqb c "013").

End Regex.

(** ** format_size_human

    [d_size] is a binary64 value.  The conversion from [uintmax_t]
    rounds to 53 significant bits (to nearest, ties to even); every
    later division by 1024 only lowers the exponent and is exact, so the
    value is carried as an exact rational. *)

Module Fmt.

(** Round to the nearest integer, ties to even. *)
Definition rne (q : Q) : Z :=
  let n := Qnum q in
  let d := Zpos (Qden q) in
  let f := n / d in
  let r := n mod d in
  match 2 * r ?= d with
  | Lt => f
  | Gt => f + 1
  | Eq => if Z.even f then f else f + 1
  end.

(** [static_cast<double>(size)] for [0 <= size < 2^64]. *)
Definition to_double (size : Z) : Q :=
  if size <? 2 ^ 53 then inject_Z size
  else
    let e := Z.log2 size - 52 in
    inject_Z (rne (size # Z.to_pos (2 ^ e)) * 2 ^ e).

Definition dec (z : Z) : string :=
  NilZero.string_of_uint (N.to_uint (Z.to_N z)).

Fixpoint zeros (n : nat) : string :=
  match n with O => "" | S n' => String "0" (zeros n') end.

(** [ss << std::fixed << std::setprecision(p) << d] for [d >= 0]. *)
Definition fixed (p : nat) (d : Q) : string :=
  let scale := 10 ^ Z.of_nat p in
  let r := rne (d * inject_Z scale) in
  match p with
  | O => dec r
  | _ =>
      let frac := dec (r mod scale) in
      dec (r / scale) ++ "." ++ zeros (p - String.length frac) ++ frac
  end.

Definition units : list string := ["B"; "KB"; "MB"; "GB"; "TB"].

(** The [while] loop; it cannot run more than four times. *)
Fixpoint scale_loop (fuel : nat) (d_size : Q) (i : Z) : Q * Z :=
  match fuel with
  | O => (d_size, i)
  | S fuel' =>
      if Qle_bool 1024%Q d_size && (i <? 4)
      then scale_loop fuel' (d_size / 1024)%Q (i + 1)
      else (d_size, i)
  end.

Definition format_size_human (size : Z) : string :=
  if size =? 0 then "0 B"
  else
    let '(d_size, i) := scale_loop 4 (to_double size) 0 in
    fixed (if i =? 0 then 0 else 1) d_size
      ++ " " ++ nth (Z.to_nat i) units "".

End Fmt.

(** One printed row of a listing table: the type, name and size
    columns (colour codes and [setw] padding are not part of the
    model). *)
Record row : Type := mk_row {
  type_str : string;
  row_name : string;
  size_str : string
}.

Definition print_row (name : string) (is_directory : bool) (size : Z) : row :=
  mk_row (if is_directory then "DIR" else "FILE")
         name
         (if is_directory then "-" else Fmt.format_size_human size).

(** [std::getline(ss, line, '\n')] until it fails: the text between
    newlines, without an empty piece after the last newline. *)
Fixpoint lines_from (s : string) (cur : string) : list string :=
  match s with
  | EmptyString => match cur with EmptyString => [] | _ => [cur] end
  | String c s' =>
      if Ascii.eqb c "010" then cur :: lines_from s' ""
      else lines_from s' (cur ++ String c "")
  end.

Definition lines (s : string) : list string := lines_from s "".

(** ** FtpClient: the remote path state *)

Module FtpClient.

Record t : Type := mk {
  base_url : string;
  user_password : string
}.

(** The constructor leaves both strings empty. *)
Definition init : t := mk "" "".

(** [ensure_trailing_slash]: [url.back()] is evaluated first. *)
Definition ensure_trailing_slash (url : string) : result string :=
  c <- Str.back url ;;
  Ok (if negb (Ascii.eqb c "/") then url ++ "/" else url).

Definition connect (self : t) (url userpass : string) : result t :=
  b <- ensure_trailing_slash url ;;
  Ok (mk b userpass).

Definition change_directory (self : t) (dir_name : string) : result t :=
  let descend :=
    u <- ensure_trailing_slash (base_url self) ;;
    b <- ensure_trailing_slash (u ++ dir_name) ;;
    Ok (mk b (user_password self)) in
  if String.eqb dir_name ".." then
    let last_slash :=
      Str.find_last_of (base_url self) "/"
                       (Str.size_sub (Str.size (base_url self)) 2) in
    if negb (last_slash =? Str.npos) && (5 <? last_slash) then
      Ok (mk (Str.substr0 (base_url self) (last_slash + 1))
             (user_password self))
    else if last_slash =? Str.npos then Ok self
    else descend
  else descend.

(** [change_directory] prints the new base except on its one silent
    [return]: for [".."] when no separator is found. *)
Definition change_directory_quiet (self : t) (dir_name : string) : bool :=
  String.eqb dir_name ".."
  && (Str.find_last_of (base_url self) "/"
                       (Str.size_sub (Str.size (base_url self)) 2)
      =? Str.npos).

Record FtpEntry : Type := mk_entry {
  name : string;
  is_directory : bool;
  size : Z
}.

(** ([drwx\-]+)\s+\d+\s+[^\s]+\s+[^\s]+\s+([0-9]+)\s+[^\s]+\s+[^\s]+\s+(.+) *)
Definition re : Regex.t :=
  Regex.seq
    [ Regex.Group 1 (Regex.Plus (Regex.one_of "drwx-"));
      Regex.Plus Regex.space; Regex.Plus Regex.digit;
      Regex.Plus Regex.space; Regex.Plus Regex.non_space;
      Regex.Plus Regex.space; Regex.Plus Regex.non_space;
      Regex.Plus Regex.space; Regex.Group 2 (Regex.Plus Regex.digit);
      Regex.Plus Regex.space; Regex.Plus Regex.non_space;
      Regex.Plus Regex.space; Regex.Plus Regex.non_space;
      Regex.Plus Regex.space; Regex.Group 3 (Regex.Plus Regex.any) ].

(** [matches.size() == 4] holds for every match of a pattern with
    three groups. *)
Definition parse_ftp_entry (line : string) : result FtpEntry :=
  match Regex.regex_match line re with
  | Some matches =>
      let perms := Regex.sub matches 1 in
      size <- Conv.stoull (Regex.sub matches 2) ;;
      let name := Regex.sub matches 3 in
      c <- Str.front perms ;;
      Ok (mk_entry name (Ascii.eqb c "d") size)
  | None => Ok (mk_entry line false 0)
  end.

(** The loop of [list_directory] over the lines of the received
    listing: the rows printed, and how the loop ended. *)
Fixpoint print_lines (ls : list string) : list row * result unit :=
  match ls with
  | [] => ([], Ok tt)
  | line :: ls' =>
      match line with
      | EmptyString => print_lines ls'
      | _ =>
          match parse_ftp_entry line with
          | Ok entry =>
              let '(rows, r) := print_lines ls' in
              (print_row (name entry) (is_directory entry) (size entry)
                 :: rows, r)
          | Undefined => ([], Undefined)
          | Throw e => ([], Throw e)
          end
      end
  end.

Definition list_rows (list_data : string) : list row * result unit :=
  print_lines (lines list_data).

End FtpClient.

(** ** LocalFileManager *)

Module LocalFileManager.

Record FileEntry : Type := mk_entry {
  name : string;
  is_directory : bool;
  size : Z
}.

(** [a.is_directory > b.is_directory] on [bool] promoted to [int]. *)
Definition compareFiles (a b : FileEntry) : bool :=
  if negb (Bool.eqb (is_directory a) (is_directory b))
  then is_directory a && negb (is_directory b)
  else String.ltb (name a) (name b).

(** [std::sort(first, last, comp)], as an insertion sort: the
    standard fixes the result up to the order of equivalent
    elements. *)
Fixpoint insert (comp : FileEntry -> FileEntry -> bool)
         (x : FileEntry) (l : list FileEntry) : list FileEntry :=
  match l with
  | [] => [x]
  | y :: l' => if comp y x then y :: insert comp x l' else x :: l
  end.

Fixpoint sort (comp : FileEntry -> FileEntry -> bool)
         (l : list FileEntry) : list FileEntry :=
  match l with
  | [] => []
  | x :: l' => insert comp x (sort comp l')
  end.

(** [a] may stand before [b] in a sorted listing. *)
Definition in_order (a b : FileEntry) : Prop := compareFiles b a = false.

(** The four entries of the specification's ordering example. *)
Definition dirB : FileEntry := mk_entry "dirB" true 0.
Definition fileA : FileEntry := mk_entry "fileA" false 10.
Definition dirA : FileEntry := mk_entry "dirA" true 0.
Definition fileB : FileEntry := mk_entry "fileB" false 2048.

(** The rows [list_directory] prints for the entries the directory
    iterator yields. *)
Definition list_rows (entries : list FileEntry) : list row :=
  map (fun e => print_row (name e) (is_directory e) (size e))
      (sort compareFiles entries).

End LocalFileManager.


(** ** std::filesystem::path::filename (POSIX): the text after the
       last separator *)

Module Path.

Fixpoint filename_from (p : string) (cur : string) : string :=
  match p with
  | EmptyString => cur
  | String c p' =>
      if Ascii.eqb c "/" then filename_from p' ""
      else filename_from p' (cur ++ String c "")
  end.

Definition filename (p : string) : string := filename_from p "".

End Path.

(** ** The shell: [split_command] and the loop of [main] *)

Module Shell.

Import LocalFileManager.

Inductive remote_op : Type :=
| Download (url local_file : string)
| Upload (local_file url : string)
| Mkd (url : string)
| Rmd (url : string)
| Dele (url : string).

Inductive local_op : Type :=
| Chdir (path : string)
| Mkdir (path : string)
| Remove (path : string)
| Rename (from to : string).

(** What libcurl and the file system do, over a world state [W]. *)
Record collaborators (W : Type) : Type := {
  (* a listing transfer: the data received, [None] unless CURLE_OK *)
  curl_list : W -> string -> W * option string;
  curl_do : W -> remote_op -> W * bool;
  fopen_rb : W -> string -> bool;
  current_path : W -> string;
  (* the entries of the current directory, [None] on filesystem_error *)
  directory_entries : W -> option (list FileEntry);
  fs_do : W -> local_op -> W * bool
}.

Arguments curl_list {W}.
Arguments curl_do {W}.
Arguments fopen_rb {W}.
Arguments current_path {W}.
Arguments directory_entries {W}.
Arguments fs_do {W}.

(** What the program writes to the terminal. *)
Inductive event : Type :=
| Prompt (text : string)
| Help
| Usage (command : string)
| UnknownCommand
| BaseUrl (url : string)
| RemoteTable (url : string) (rows : list row)
| LocalTable (rows : list row)
| Status (ok : bool).

(** The letter mapping of [tolower] in the "C" locale. *)
Definition lower (c : ascii) : ascii :=
  let n := N_of_ascii c in
  if (65 <=? n)%N && (n <=? 90)%N then ascii_of_N (n + 32) else c.

(** [::tolower] applied to a plain [char].  With [char] signed a byte
    of 0x80 or more reaches it as a negative [int], for which its
    behaviour is undefined. *)
Definition tolower (c : ascii) : result ascii :=
  if Conv.isascii c then Ok (lower c) else Undefined.

(** [std::transform(command.begin(), command.end(), command.begin(),
    ::tolower)]. *)
Fixpoint transform_tolower (s : string) : result string :=
  match s with
  | EmptyString => Ok EmptyString
  | String c s' =>
      c' <- tolower c ;;
      r <- transform_tolower s' ;;
      Ok (String c' r)
  end.

(** A string with its letters in lower case, the other bytes kept. *)
Fixpoint lower_string (s : string) : string :=
  match s with
  | EmptyString => EmptyString
  | String c s' => String (lower c) (lower_string s')
  end.

(** [while (ss >> item) parts.push_back(item)]. *)
Fixpoint split_from (s : string) (item : string) : list string :=
  match s with
  | EmptyString => match item with EmptyString => [] | _ => [item] end
  | String c s' =>
      if Conv.isspace c then
        match item with
        | EmptyString => split_from s' ""
        | _ => item :: split_from s' ""
        end
      else split_from s' (item ++ String c "")
  end.

Definition split_command (command_line : string) : list string :=
  split_from command_line "".

(** [std::cin]: the characters not read yet and whether the stream is
    still good. *)
Record istream : Type := mk_istream {
  buffer : string;
  good : bool
}.

Fixpoint until_newline (s : string) (cur : string) : option (string * string) :=
  match s with
  | EmptyString => None
  | String c s' =>
      if Ascii.eqb c "010" then Some (cur, s')
      else until_newline s' (cur ++ String c "")
  end.

(** [std::getline(in, str)].  When the stream is not good the sentry
    fails and [str] is left as it was; otherwise [str] is erased and
    filled up to the newline or the end of the input, and reaching the
    end sets eofbit. *)
Definition getline (cin : istream) (str : string) : istream * string :=
  if good cin then
    match until_newline (buffer cin) "" with
    | Some (line, rest) => (mk_istream rest true, line)
    | None => (mk_istream "" false, buffer cin)
    end
  else (cin, str).

Section Main.

Context {W : Type} (C : collaborators W).

Record state : Type := mk_state {
  world : W;
  ftp_client : FtpClient.t;
  cin : istream;
  command_line : string;
  out : list event
}.

Inductive outcome : Type :=
| Continue (s : state)            (* next iteration *)
| Return (code : Z) (s : state)   (* main returned *)
| UB                              (* undefined behaviour *)
| Terminate (e : exn).            (* uncaught exception *)

Definition emit (e : event) (s : state) : state :=
  mk_state (world s) (ftp_client s) (cin s) (command_line s) (out s ++ [e]).

Definition set_world (w : W) (s : state) : state :=
  mk_state w (ftp_client s) (cin s) (command_line s) (out s).

Definition set_client (f : FtpClient.t) (s : state) : state :=
  mk_state (world s) f (cin s) (command_line s) (out s).

Definition prompt (s : state) : string :=
  String "010" "local:" ++ Path.filename (current_path C (world s))
    ++ " | remote:"
    ++ Path.filename (FtpClient.base_url (ftp_client s)) ++ "> ".

(** A member function that can fail before it reaches its end. *)
Definition run_result (r : result state) : outcome :=
  match r with
  | Ok s => Continue s
  | Undefined => UB
  | Throw e => Terminate e
  end.

Definition remote_call (s : state) (op : remote_op) : state :=
  let '(w, ok) := curl_do C (world s) op in
  emit (Status ok) (set_world w s).

Definition local_call (s : state) (op : local_op) : state :=
  let '(w, ok) := fs_do C (world s) op in
  emit (Status ok) (set_world w s).

Definition full_url (s : state) (file : string) : result string :=
  u <- FtpClient.ensure_trailing_slash (FtpClient.base_url (ftp_client s)) ;;
  Ok (u ++ file).

Definition ftp_list_directory (s : state) : outcome :=
  let base := FtpClient.base_url (ftp_client s) in
  let '(w, res) := curl_list C (world s) base in
  let s := set_world w s in
  match res with
  | None => Continue (emit (Status false) s)
  | Some list_data =>
      let '(rows, r) := FtpClient.list_rows list_data in
      let s := emit (RemoteTable base rows) s in
      run_result (_ <- r ;; Ok s)
  end.

Definition local_list_directory (s : state) : state :=
  match directory_entries C (world s) with
  | Some entries => emit (LocalTable (LocalFileManager.list_rows entries)) s
  | None => emit (Status false) s
  end.

Definition arg (args : list string) (n : nat) : string := nth n args "".

(** The body of [while (true)] after the line has been read. *)
Definition dispatch (s : state) (args : list string) : outcome :=
  match args with
  | [] => Continue s
  | arg0 :: _ =>
    match transform_tolower arg0 with
    | Undefined => UB
    | Throw e => Terminate e
    | Ok command =>
    let n := List.length args in
    if String.eqb command "exit" then Return 0 s
    else if String.eqb command "help" then Continue (emit Help s)
    else if String.eqb command "connect" then
      if (2 <=? n)%nat then
        let userpass := if (3 <=? n)%nat then arg args 2 else "" in
        run_result
          (f <- FtpClient.connect (ftp_client s) (arg args 1) userpass ;;
           Ok (emit (BaseUrl (FtpClient.base_url f)) (set_client f s)))
      else Continue (emit (Usage "connect") s)
    else if String.eqb command "ls" || String.eqb command "dir" then
      ftp_list_directory s
    else if String.eqb command "cd" then
      if (n =? 2)%nat then
        run_result
          (f <- FtpClient.change_directory (ftp_client s) (arg args 1) ;;
           Ok (if FtpClient.change_directory_quiet (ftp_client s) (arg args 1)
               then set_client f s
               else emit (BaseUrl (FtpClient.base_url f)) (set_client f s)))
      else Continue (emit (Usage "cd") s)
    else if String.eqb command "mkdir" then
      if (n =? 2)%nat then
        run_result (u <- full_url s (arg args 1) ;;
                    Ok (remote_call s (Mkd u)))
      else Continue (emit (Usage "mkdir") s)
    else if String.eqb command "rm" then
      if (n =? 3)%nat then
        let is_dir := String.eqb (arg args 2) "1"
                      || String.eqb (arg args 2) "true" in
        run_result (u <- full_url s (arg args 1) ;;
                    Ok (remote_call s (if is_dir then Rmd u else Dele u)))
      else Continue (emit (Usage "rm") s)
    else if String.eqb command "get" then
      if (n =? 3)%nat then
        run_result (u <- full_url s (arg args 1) ;;
                    Ok (remote_call s (Download u (arg args 2))))
      else Continue (emit (Usage "get") s)
    else if String.eqb command "put" then
      if (n =? 3)%nat then
        if fopen_rb C (world s) (arg args 1) then
          run_result (u <- full_url s (arg args 2) ;;
                      Ok (remote_call s (Upload (arg args 1) u)))
        else Continue (emit (Status false) s)
      else Continue (emit (Usage "put") s)
    else if String.eqb command "lls" || String.eqb command "ldir" then
      Continue (local_list_directory s)
    else if String.eqb command "lcd" then
      if (n =? 2)%nat then Continue (local_call s (Chdir (arg args 1)))
      else Continue (emit (Usage "lcd") s)
    else if String.eqb command "lmkdir" then
      if (n =? 2)%nat then Continue (local_call s (Mkdir (arg args 1)))
      else Continue (emit (Usage "lmkdir") s)
    else if String.eqb command "lrm" then
      if (n =? 2)%nat then Continue (local_call s (Remove (arg args 1)))
      else Continue (emit (Usage "lrm") s)
    else if String.eqb command "lmv" then
      if (n =? 3)%nat then
        Continue (local_call s (Rename (arg args 1) (arg args 2)))
      else Continue (emit (Usage "lmv") s)
    else Continue (emit UnknownCommand s)
    end
  end.

(** One iteration of [while (true)]. *)
Definition step (s : state) : outcome :=
  let s := emit (Prompt (prompt s)) s in
  let '(cin', line) := getline (cin s) (command_line s) in
  let s := mk_state (world s) (ftp_client s) cin' line (out s) in
  dispatch s (split_command line).

(** [fuel] iterations of the loop; [Continue] when the loop is still
    running after them. *)
Fixpoint run (fuel : nat) (s : state) : outcome :=
  match fuel with
  | O => Continue s
  | S fuel' =>
      match step s with
      | Continue s' => run fuel' s'
      | o => o
      end
  end.

(** The state [main] enters the loop with, for a given standard
    input. *)
Definition start (w : W) (input : string) : state :=
  mk_state w FtpClient.init (mk_istream input true) "" [Help].

(** The lines [getline] hands out for an input: the text between
    newlines, and last the text after the final newline (with which
    the end of the input is met). *)
Fixpoint input_lines (s : string) (cur : string) : list string :=
  match s with
  | EmptyString => [cur]
  | String c s' =>
      if Ascii.eqb c "010" then cur :: input_lines s' ""
      else input_lines s' (cur ++ String c "")
  end.

(** The command of a line: its first token in lower case. *)
Definition command_of (line : string) : option string :=
  match split_command line with
  | [] => None
  | arg0 :: _ => Some (lower_string arg0)
  end.

End Main.

(** Collaborators that do nothing, over a one-point world. *)
Definition idle : collaborators unit := {|
  curl_list := fun w _ => (w, None);
  curl_do := fun w _ => (w, false);
  fopen_rb := fun _ _ => false;
  current_path := fun _ => "/home/user";
  directory_entries := fun _ => Some [];
  fs_do := fun w _ => (w, false)
|}.

(** A server that answers every listing request with [list_data]. *)
Definition serving (list_data : string) : collaborators unit := {|
  curl_list := fun w _ => (w, Some list_data);
  curl_do := fun w _ => (w, true);
  fopen_rb := fun _ _ => true;
  current_path := fun _ => "/home/user";
  directory_entries := fun _ => Some [];
  fs_do := fun w _ => (w, true)
|}.

(** A server that records the address of every listing request, in
    the order asked, and answers none. *)
Definition recording : collaborators (list string) := {|
  curl_list := fun w url => ((w ++ [url])%list, None);
  curl_do := fun w _ => (w, true);
  fopen_rb := fun _ _ => true;
  current_path := fun _ => "/home/user";
  directory_entries := fun _ => Some [];
  fs_do := fun w _ => (w, true)
|}.

(** What a run ended in. *)
Definition is_ub {W : Type} (o : @outcome W) : bool :=
  match o with UB => true | _ => false end.

Definition returned {W : Type} (o : @outcome W) : bool :=
  match o with Return _ _ => true | _ => false end.

(** The number of arguments (the command included) each command of
    [main] asks for before it acts; [help], [exit], the listings and
    unknown words ask for none. *)
Definition arity (command : string) : option (nat -> bool) :=
  if String.eqb command "connect" then Some (fun n => (2 <=? n)%nat)
  else if String.eqb command "cd" || String.eqb command "mkdir"
          || String.eqb command "lcd" || String.eqb command "lmkdir"
          || String.eqb command "lrm"
  then Some (fun n => (n =? 2)%nat)
  else if String.eqb command "rm" || String.eqb command "get"
          || String.eqb command "put" || String.eqb command "lmv"
  then Some (fun n => (n =? 3)%nat)
  else None.

(** The commands that take no argument and look at none. *)
Definition nullary (command : string) : bool :=
  String.eqb command "exit" || String.eqb command "help"
  || String.eqb command "ls" || String.eqb command "dir"
  || String.eqb command "lls" || String.eqb command "ldir".

End Shell.

(** The lines of a listing that give a row: the ones that are not
    empty. *)
Definition row_lines (list_data : string) : list string :=
  filter (fun l => negb (String.eqb l "")) (lines list_data).

(** A listing as a server sends it, every line closed by CR LF. *)
Fixpoint crlf_listing (ls : list string) : string :=
  match ls with
  | [] => ""
  | l :: ls' => l ++ String "013" (String "010" (crlf_listing ls'))
  end.

(** * Properties *)

(** ** Strings *)

Section StringFacts.

Lemma length_app (s1 s2 : string) :
  String.length (s1 ++ s2) = (String.length s1 + String.length s2)%nat.
Proof. induction s1 as [|a s1 IH]; simpl; [reflexivity | now rewrite IH]. Qed.

Lemma sapp_assoc (s1 s2 s3 : string) : (s1 ++ s2) ++ s3 = s1 ++ (s2 ++ s3).
Proof. induction s1 as [|a s1 IH]; simpl; [reflexivity | now rewrite IH]. Qed.

Lemma app_empty_r (s : string) : s ++ "" = s.
Proof. induction s as [|a s IH]; simpl; [reflexivity | now rewrite IH]. Qed.

Lemma substring_app (s1 s2 : string) :
  String.substring 0 (String.length s1) (s1 ++ s2) = s1.
Proof. induction s1 as [|a s1 IH]; simpl; [now destruct s2 | now rewrite IH]. Qed.

Lemma back_app (s1 s2 : string) :
  s2 <> "" -> Str.back (s1 ++ s2) = Str.back s2.
Proof.
  intros Hne. induction s1 as [|a s1 IH]; simpl; [reflexivity|].
  rewrite IH. destruct (s1 ++ s2) eqn:E; [|reflexivity].
  destruct s1; simpl in E; [congruence | discriminate].
Qed.

Lemma back_snoc (s : string) (c : ascii) : Str.back (s ++ String c "") = Ok c.
Proof. rewrite back_app; [reflexivity | discriminate]. Qed.

(** A string with a last character is its front part followed by it. *)
Lemma back_inv (s : string) (c : ascii) :
  Str.back s = Ok c -> exists s0, s = s0 ++ String c "".
Proof.
  induction s as [|a s IH]; simpl; [discriminate|].
  destruct s as [|b s].
  - intros [= ->]. now exists "".
  - intros H. destruct (IH H) as [s0 E]. exists (String a s0).
    simpl. now rewrite <- E.
Qed.

Lemma back_nonempty (s : string) :
  s <> "" -> exists c, Str.back s = Ok c.
Proof.
  induction s as [|a s IH]; [congruence|]. intros _.
  destruct s as [|b s]; [now exists a|].
  destruct IH as [c Hc]; [discriminate|]. now exists c.
Qed.

Lemma back_mem (s : string) (c : ascii) : Str.back s = Ok c -> Str.mem c s = true.
Proof.
  intros H. destruct (back_inv _ _ H) as [s0 ->]. clear H.
  induction s0 as [|a s0 IH]; simpl.
  - now rewrite Ascii.eqb_refl.
  - rewrite IH. apply orb_true_r.
Qed.

Lemma rfind_app (s1 s2 : string) (c : ascii) (i pos acc : Z) :
  Str.rfind_upto (s1 ++ s2) c i pos acc
  = Str.rfind_upto s2 c (i + Z.of_nat (String.length s1)) pos
                   (Str.rfind_upto s1 c i pos acc).
Proof.
  revert i acc. induction s1 as [|a s1 IH]; intros i acc; simpl String.length.
  - simpl. now rewrite Z.add_0_r.
  - simpl Str.rfind_upto. rewrite IH. f_equal. lia.
Qed.

Lemma rfind_absent (s : string) (c : ascii) (i pos acc : Z) :
  Str.mem c s = false -> Str.rfind_upto s c i pos acc = acc.
Proof.
  revert i. induction s as [|a s IH]; intros i; simpl; [reflexivity|].
  intros H. apply orb_false_elim in H as [Ha Hs].
  rewrite Ha, andb_false_r. now apply IH.
Qed.

Lemma rfind_beyond (s : string) (c : ascii) (i pos acc : Z) :
  pos < i -> Str.rfind_upto s c i pos acc = acc.
Proof.
  revert i. induction s as [|a s IH]; intros i Hi; simpl; [reflexivity|].
  replace (i <=? pos) with false by (symmetry; apply Z.leb_gt; lia).
  simpl. apply IH. lia.
Qed.

(** What [rfind_upto] returns is the accumulator or an index within
    the string. *)
Lemma rfind_range (s : string) (c : ascii) (i pos acc : Z) :
  let r := Str.rfind_upto s c i pos acc in
  r = acc \/ (i <= r < i + Z.of_nat (String.length s) /\ r <= pos).
Proof.
  revert i acc. induction s as [|a s IH]; intros i acc; simpl; [now left|].
  specialize (IH (i + 1) (if (i <=? pos) && Ascii.eqb a c then i else acc)).
  simpl in IH. destruct IH as [-> | IH]; [|right; lia].
  destruct ((i <=? pos) && Ascii.eqb a c) eqn:E; [|now left].
  right. apply andb_true_iff in E as [E _]. apply Z.leb_le in E. lia.
Qed.

(** The character at an index [rfind_upto] found is the one looked
    for: the prefix up to and including it ends with it. *)
Lemma rfind_hit (s : string) (c : ascii) (i pos acc : Z) :
  let r := Str.rfind_upto s c i pos acc in
  r <> acc ->
  Str.back (String.substring 0 (Z.to_nat (r - i + 1)) s) = Ok c.
Proof.
  revert i acc. induction s as [|a s IH]; intros i acc; simpl; [congruence|].
  intros Hne.
  set (acc' := if (i <=? pos) && Ascii.eqb a c then i else acc) in *.
  pose proof (rfind_range s c (i + 1) pos acc') as Hr. simpl in Hr.
  destruct (Z.eq_dec (Str.rfind_upto s c (i + 1) pos acc') acc') as [E|E].
  - rewrite E in *. unfold acc' in *.
    destruct ((i <=? pos) && Ascii.eqb a c) eqn:Hc; [|congruence].
    replace (Z.to_nat (i - i + 1)) with 1%nat by lia. simpl.
    apply andb_true_iff in Hc as [_ Hc]. apply Ascii.eqb_eq in Hc. subst.
    now destruct s.
  - destruct Hr as [Hr|Hr]; [congruence|].
    specialize (IH (i + 1) acc' E).
    replace (Z.to_nat (Str.rfind_upto s c (i + 1) pos acc' - i + 1))
      with (S (Z.to_nat (Str.rfind_upto s c (i + 1) pos acc' - (i + 1) + 1)))
      by lia.
    simpl.
    destruct (String.substring 0 _ s) eqn:Es; [discriminate IH | exact IH].
Qed.

End StringFacts.

(** ** Lower case *)

Section LowerCase.

Import Shell.

Lemma lower_isascii (c : ascii) : Conv.isascii (lower c) = Conv.isascii c.
Proof. destruct c as [[] [] [] [] [] [] [] []]; reflexivity. Qed.

Lemma lower_idempotent (c : ascii) : lower (lower c) = lower c.
Proof. destruct c as [[] [] [] [] [] [] [] []]; reflexivity. Qed.

Lemma lower_string_idempotent (s : string) :
  lower_string (lower_string s) = lower_string s.
Proof.
  induction s as [|c s IH]; simpl; [reflexivity|].
  now rewrite lower_idempotent, IH.
Qed.

Lemma lower_string_isascii (s : string) :
  Str.all Conv.isascii (lower_string s) = Str.all Conv.isascii s.
Proof.
  induction s as [|c s IH]; simpl; [reflexivity|].
  now rewrite lower_isascii, IH.
Qed.

(** [std::transform] with [::tolower] is defined exactly on the
    strings of bytes below 0x80, where it gives the lower-case
    string. *)
Lemma transform_tolower_spec (s : string) :
  transform_tolower s
  = if Str.all Conv.isascii s then Ok (lower_string s) else Undefined.
Proof.
  induction s as [|c s IH]; [reflexivity|].
  cbn [transform_tolower Str.all lower_string]. unfold tolower.
  destruct (Conv.isascii c); [|reflexivity]. cbn [bind andb].
  rewrite IH. now destruct (Str.all Conv.isascii s).
Qed.

(** A word whose lower-case form is a word of bytes below 0x80, as
    every command is, is one [std::transform] is defined on. *)
Lemma transform_tolower_keyword (s k : string) :
  lower_string s = k -> Str.all Conv.isascii k = true ->
  transform_tolower s = Ok k.
Proof.
  intros H Hk. rewrite transform_tolower_spec.
  now rewrite <- lower_string_isascii, H, Hk.
Qed.

Lemma transform_tolower_cases (s : string) :
  transform_tolower s = Ok (lower_string s)
  \/ (transform_tolower s = Undefined
      /\ Str.all Conv.isascii (lower_string s) = false).
Proof.
  rewrite transform_tolower_spec, lower_string_isascii.
  destruct (Str.all Conv.isascii s); auto.
Qed.

End LowerCase.

(** ** The remote path state *)

Section RemotePath.

Import FtpClient.

Lemma ensure_kept (url : string) :
  Str.back url = Ok "/"%char -> ensure_trailing_slash url = Ok url.
Proof. intros H. unfold ensure_trailing_slash. now rewrite H. Qed.

Lemma ensure_added (url : string) (c : ascii) :
  Str.back url = Ok c -> c <> "/"%char ->
  ensure_trailing_slash url = Ok (url ++ "/").
Proof.
  intros H Hc. unfold ensure_trailing_slash. rewrite H. simpl.
  apply Ascii.eqb_neq in Hc. now rewrite Hc.
Qed.

Lemma ensure_back (url u : string) :
  ensure_trailing_slash url = Ok u -> Str.back u = Ok "/"%char.
Proof.
  unfold ensure_trailing_slash.
  destruct (Str.back url) as [c| |] eqn:E; simpl; try discriminate.
  destruct (Ascii.eqb c "/") eqn:Ec; simpl; intros [= <-].
  - apply Ascii.eqb_eq in Ec. now subst.
  - apply back_snoc.
Qed.

Lemma ensure_total (url : string) :
  url <> "" -> exists u, ensure_trailing_slash url = Ok u.
Proof.
  intros H. destruct (back_nonempty url H) as [c Hc].
  unfold ensure_trailing_slash. rewrite Hc. simpl. eauto.
Qed.

(** [normalizeRemote] is idempotent. *)
Lemma ensure_idempotent (url u : string) :
  ensure_trailing_slash url = Ok u -> ensure_trailing_slash u = Ok u.
Proof. intros H. apply ensure_kept. eapply ensure_back; eauto. Qed.

Lemma app_nonempty_l (s1 s2 : string) : s1 <> "" -> s1 ++ s2 <> "".
Proof. destruct s1; [congruence | discriminate]. Qed.

(** The fall-through of [change_directory]: the base gets its slash,
    the name is appended, and the result gets its slash. *)
Lemma descend_total (base dir_name : string) :
  Str.back base = Ok "/"%char ->
  exists b,
    (u <- ensure_trailing_slash base ;; ensure_trailing_slash (u ++ dir_name))
    = Ok b /\ Str.back b = Ok "/"%char.
Proof.
  intros H. rewrite (ensure_kept _ H). simpl.
  destruct (ensure_total (base ++ dir_name)) as [b Hb].
  - apply app_nonempty_l. intros ->. discriminate.
  - exists b. split; [exact Hb | eapply ensure_back; eauto].
Qed.

Lemma find_last_of_range (s : string) (c : ascii) (pos : Z) :
  let r := Str.find_last_of s c pos in
  r = Str.npos \/
  (0 <= r < Str.size s /\
   Str.back (Str.substr0 s (r + 1)) = Ok c).
Proof.
  intros r. unfold r, Str.find_last_of.
  pose proof (rfind_range s c 0 pos Str.npos) as Hr. simpl in Hr.
  destruct (Z.eq_dec (Str.rfind_upto s c 0 pos Str.npos) Str.npos) as [E|E];
    [now left|right].
  destruct Hr as [Hr|Hr]; [congruence|].
  split; [unfold Str.size; lia|].
  pose proof (rfind_hit s c 0 pos Str.npos E) as Hh. simpl in Hh.
  unfold Str.substr0.
  now replace (Str.rfind_upto s c 0 pos Str.npos - 0 + 1)
    with (Str.rfind_upto s c 0 pos Str.npos + 1) in Hh by lia.
Qed.

(** The last separator before the final character of
    [b0 ++ "/" ++ dir ++ "/"], for a [dir] without separator, is the
    one after [b0]. *)
Lemma find_last_of_descended (b0 dir : string) :
  Str.mem "/" dir = false ->
  Str.size (b0 ++ "/" ++ dir ++ "/") < Str.size_max ->
  Str.find_last_of (b0 ++ "/" ++ dir ++ "/") "/"
                   (Str.size_sub (Str.size (b0 ++ "/" ++ dir ++ "/")) 2)
  = Str.size b0.
Proof.
  intros Hmem Hsz. unfold Str.size in *.
  rewrite !length_app in *. simpl String.length in *.
  unfold Str.size_sub, Str.size_max in *.
  rewrite Z.mod_small by lia.
  unfold Str.find_last_of. rewrite rfind_app.
  change ("/" ++ dir ++ "/") with (String "/" (dir ++ "/")).
  cbn [Str.rfind_upto]. rewrite Ascii.eqb_refl, andb_true_r.
  replace (0 + Z.of_nat (String.length b0) <=? _) with true
    by (symmetry; apply Z.leb_le; lia).
  rewrite rfind_app, (rfind_absent dir) by assumption.
  apply rfind_beyond. lia.
Qed.

(** C1, at the server root: [cd ..] on "ftp://host/" finds the second
    slash of the scheme at index 5, takes neither [return], and falls
    through to the descending branch, which stores "ftp://host/../". *)
Theorem cd_dotdot_at_root_appends (userpass : string) :
  change_directory (mk "ftp://host/" userpass) ".."
  = Ok (mk "ftp://host/../" userpass)
  /\ Str.find_last_of "ftp://host/" "/" (Str.size_sub (Str.size "ftp://host/") 2) = 5.
Proof. split; reflexivity. Qed.

(** C4 (counterexample): [connect] keeps a URL that already ends with
    two separators as it is, so the stored base ends with two. *)
Lemma connect_keeps_double_slash :
  exists f, connect init "ftp://host//" "" = Ok f
            /\ Str.trailing "/" (base_url f) = 2%nat
            /\ Str.trailing "/" (base_url f) <> 1%nat.
Proof. eexists. repeat split. simpl. discriminate. Qed.

Lemma trailing_snoc (c : ascii) (s : string) :
  Str.trailing c (s ++ String c "") = S (Str.trailing c s).
Proof.
  induction s as [|a s IH]; simpl.
  - now rewrite Ascii.eqb_refl.
  - rewrite IH, length_app. simpl String.length.
    replace (String.length s + 1)%nat with (S (String.length s)) by lia.
    cbn [Nat.eqb].
    destruct (Ascii.eqb a c); [|reflexivity].
    now destruct (Nat.eqb (Str.trailing c s) (String.length s)).
Qed.

Lemma trailing_other (c c' : ascii) (s : string) :
  Str.back s = Ok c' -> c' <> c -> Str.trailing c s = 0%nat.
Proof.
  intros Hb Hc. destruct (back_inv _ _ Hb) as [s0 ->]. clear Hb.
  apply Ascii.eqb_neq in Hc.
  induction s0 as [|a s0 IH]; simpl.
  - now rewrite Hc.
  - rewrite IH, length_app. simpl String.length.
    replace (String.length s0 + 1)%nat with (S (String.length s0)) by lia.
    cbn [Nat.eqb]. now destruct (Ascii.eqb a c).
Qed.

Lemma trailing_back (c : ascii) (s : string) :
  Str.back s = Ok c -> (1 <= Str.trailing c s)%nat.
Proof.
  intros Hb. destruct (back_inv _ _ Hb) as [s0 ->].
  rewrite trailing_snoc. lia.
Qed.

(** What [ensure_trailing_slash] returns, to the character: the URL as
    it is when it ends with separators, however many, and with one
    separator added when it ends with none. *)
Lemma ensure_exact (url : string) :
  url <> "" ->
  let u := if (0 <? Str.trailing "/" url)%nat then url else url ++ "/" in
  ensure_trailing_slash url = Ok u
  /\ Str.back u = Ok "/"%char
  /\ Str.trailing "/" u = Nat.max 1 (Str.trailing "/" url).
Proof.
  intros Hne. destruct (back_nonempty url Hne) as [c Hc]. cbv zeta.
  destruct (Ascii.eqb_spec c "/") as [->|Hn].
  - pose proof (trailing_back _ _ Hc) as Ht.
    replace (0 <? Str.trailing "/" url)%nat with true
      by (symmetry; apply Nat.ltb_lt; lia).
    repeat split; [now apply ensure_kept | exact Hc | lia].
  - rewrite (trailing_other "/" c url Hc Hn). cbn [Nat.ltb Nat.leb].
    repeat split; [now apply (ensure_added url c) | apply back_snoc |].
    rewrite trailing_snoc, (trailing_other "/" c url Hc Hn). reflexivity.
Qed.

(** C4 (amended): [connect] with a non-empty URL, and
    [change_directory] on a base that ends with a separator, leave a
    base that ends with at least one separator.  A separator is added
    only when there is none: the base has as many trailing separators
    as the URL (or the base followed by the name) had, and exactly one
    when that had none.  [cd ..] keeps a front part of the base or
    appends "../". *)
Theorem base_url_ends_with_slash
        (self0 self : t) (url userpass dir_name : string) :
  url <> "" ->
  Str.back (base_url self) = Ok "/"%char ->
  (exists f, connect self0 url userpass = Ok f
             /\ Str.back (base_url f) = Ok "/"%char
             /\ base_url f
                = (if (0 <? Str.trailing "/" url)%nat then url else url ++ "/")
             /\ Str.trailing "/" (base_url f)
                = Nat.max 1 (Str.trailing "/" url))
  /\ (exists f, change_directory self dir_name = Ok f
                /\ Str.back (base_url f) = Ok "/"%char
                /\ (dir_name <> ".." ->
                    base_url f
                    = (if (0 <? Str.trailing "/" (base_url self ++ dir_name))%nat
                       then base_url self ++ dir_name
                       else (base_url self ++ dir_name) ++ "/")
                    /\ Str.trailing "/" (base_url f)
                       = Nat.max 1 (Str.trailing "/" (base_url self ++ dir_name)))
                /\ (dir_name = ".." ->
                    (exists k, base_url f
                               = String.substring 0 k (base_url self))
                    \/ base_url f = base_url self ++ "../")).
Proof.
  intros Hurl Hinv. split.
  - destruct (ensure_exact url Hurl) as (Hu & Hb & Ht).
    eexists. unfold connect. rewrite Hu. cbn [bind base_url].
    repeat split; assumption.
  - assert (Hne : base_url self ++ dir_name <> "").
    { apply app_nonempty_l. intros E. rewrite E in Hinv. discriminate. }
    destruct (ensure_exact _ Hne) as (Hu & Hb & Ht).
    unfold change_directory.
    rewrite (ensure_kept _ Hinv). cbn [bind]. rewrite Hu. cbn [bind].
    destruct (String.eqb_spec dir_name "..") as [->|Hdd].
    + set (r := Str.find_last_of _ _ _).
      destruct (find_last_of_range (base_url self) "/"
                  (Str.size_sub (Str.size (base_url self)) 2)) as [E|[_ E]];
        fold r in E.
      * rewrite E. cbn [Z.eqb negb andb]. change (Str.npos =? Str.npos) with true.
        cbv iota. cbn [negb andb]. eexists. split; [reflexivity|].
        split; [exact Hinv|]. split; [congruence|]. intros _. left.
        exists (String.length (base_url self)).
        pose proof (substring_app (base_url self) "") as Hs.
        rewrite app_empty_r in Hs. now rewrite Hs.
      * destruct (negb (r =? Str.npos) && (5 <? r)).
        -- eexists. split; [reflexivity|]. cbn [base_url].
           split; [exact E|]. split; [congruence|]. intros _. left.
           now exists (Z.to_nat (r + 1)).
        -- destruct (r =? Str.npos).
           ++ eexists. split; [reflexivity|].
              split; [exact Hinv|]. split; [congruence|]. intros _. left.
              exists (String.length (base_url self)).
              pose proof (substring_app (base_url self) "") as Hs.
              rewrite app_empty_r in Hs. now rewrite Hs.
           ++ eexists. split; [reflexivity|]. cbn [base_url].
              split; [exact Hb|]. split; [congruence|]. intros _. right.
              rewrite (trailing_other "/" "." (base_url self ++ ".."));
                [|rewrite back_app; [reflexivity | discriminate]
                 |discriminate].
              cbn [Nat.ltb Nat.leb]. now rewrite sapp_assoc.
    + eexists. split; [reflexivity|]. cbn [base_url].
      split; [exact Hb|]. split; [|congruence]. intros _. now split.
Qed.

Lemma base_url_ends_with_slash_witness :
  (exists f, connect init "ftp://host" "demo:demo" = Ok f
             /\ Str.back (base_url f) = Ok "/"%char
             /\ base_url f
                = (if (0 <? Str.trailing "/" "ftp://host")%nat
                   then "ftp://host" else "ftp://host" ++ "/")
             /\ Str.trailing "/" (base_url f)
                = Nat.max 1 (Str.trailing "/" "ftp://host"))
  /\ (exists f, change_directory (mk "ftp://host/" "demo:demo") "pub" = Ok f
                /\ Str.back (base_url f) = Ok "/"%char
                /\ ("pub" <> ".." ->
                    base_url f
                    = (if (0 <? Str.trailing "/"
                                  (base_url (mk "ftp://host/" "demo:demo")
                                     ++ "pub"))%nat
                       then base_url (mk "ftp://host/" "demo:demo") ++ "pub"
                       else (base_url (mk "ftp://host/" "demo:demo") ++ "pub")
                              ++ "/")
                    /\ Str.trailing "/" (base_url f)
                       = Nat.max 1
                           (Str.trailing "/"
                              (base_url (mk "ftp://host/" "demo:demo")
                                 ++ "pub")))
                /\ ("pub" = ".." ->
                    (exists k, base_url f
                               = String.substring 0 k
                                   (base_url (mk "ftp://host/" "demo:demo")))
                    \/ base_url f
                       = base_url (mk "ftp://host/" "demo:demo") ++ "../")).
Proof.
  apply (base_url_ends_with_slash init (mk "ftp://host/" "demo:demo")
           "ftp://host" "demo:demo" "pub").
  - discriminate.
  - reflexivity.
Defined.

(** C6, before any [connect]: the base is empty, and descending
    evaluates [url.back()] on the empty string in
    [ensure_trailing_slash], which is undefined; so is [cd sub] typed
    as the first command of a session. *)
Theorem cd_before_connect_undefined
        (W : Type) (C : Shell.collaborators W) (w : W) :
  base_url init = ""
  /\ Str.back "" = Undefined
  /\ ensure_trailing_slash (base_url init) = Undefined
  /\ change_directory init "sub" = Undefined
  /\ Shell.run C 1 (Shell.start w "cd sub") = Shell.UB.
Proof. repeat split. Qed.

(** Before [connect], [mkdir], [rm] and [get] build their address
    through the same call; [cd ..] returns at once. *)
Example remote_commands_before_connect
        (W : Type) (C : Shell.collaborators W) (w : W) :
  Shell.run C 1 (Shell.start w "mkdir d") = Shell.UB
  /\ Shell.run C 1 (Shell.start w "rm f 0") = Shell.UB
  /\ Shell.run C 1 (Shell.start w "get f g") = Shell.UB
  /\ change_directory init ".." = Ok init.
Proof. repeat split. Qed.

(** C9: from a base that ends with a separator and is longer than the
    scheme prefix, descending into a directory name (not empty, no
    separator in it, not "..") and ascending gives the base back. *)
Theorem descend_then_ascend (self : t) (dir_name : string) :
  Str.back (base_url self) = Ok "/"%char ->
  6 < Str.size (base_url self) ->
  Str.size (base_url self) + Str.size dir_name + 1 < Str.size_max ->
  dir_name <> "" ->
  dir_name <> ".." ->
  Str.mem "/" dir_name = false ->
  (f <- change_directory self dir_name ;; change_directory f "..") = Ok self.
Proof.
  destruct self as [base up]. cbn [base_url].
  intros Hback Hlen Hsz Hne Hdd Hmem.
  destruct (back_inv _ _ Hback) as [b0 ->].
  destruct (back_nonempty _ Hne) as [c Hc].
  assert (Hcs : c <> "/"%char).
  { intros ->. apply back_mem in Hc. congruence. }
  unfold change_directory at 1. cbn [base_url user_password].
  apply String.eqb_neq in Hdd. rewrite Hdd.
  rewrite (ensure_kept _ Hback). cbn [bind].
  rewrite (ensure_added ((b0 ++ "/") ++ dir_name) c);
    [|rewrite back_app; assumption|assumption].
  cbn [bind]. unfold change_directory. cbn [base_url user_password].
  replace (String.eqb ".." "..") with true by reflexivity.
  rewrite !sapp_assoc.
  assert (Hsz' : Str.size (b0 ++ "/" ++ dir_name ++ "/") < Str.size_max).
  { unfold Str.size in *. rewrite !length_app in *.
    simpl String.length in *. lia. }
  rewrite (find_last_of_descended b0 dir_name Hmem Hsz').
  unfold Str.size in *. rewrite !length_app in *. simpl String.length in *.
  replace (Z.of_nat (String.length b0) =? Str.npos) with false
    by (symmetry; apply Z.eqb_neq; unfold Str.npos, Str.size_max in *; lia).
  replace (5 <? Z.of_nat (String.length b0)) with true
    by (symmetry; apply Z.ltb_lt; lia).
  cbn [negb andb]. do 2 f_equal.
  unfold Str.substr0.
  replace (Z.to_nat (Z.of_nat (String.length b0) + 1))
    with (String.length (b0 ++ "/"))
    by (rewrite length_app; simpl; lia).
  rewrite <- (sapp_assoc b0 "/"). apply substring_app.
Qed.

(** A name with a separator in it descends two levels, and ascending
    takes back only the last. *)
Example descend_two_levels :
  (f <- change_directory (mk "ftp://host/a/" "") "b/c" ;;
   change_directory f "..") = Ok (mk "ftp://host/a/b/" "").
Proof. reflexivity. Qed.

Lemma descend_then_ascend_witness :
  (f <- change_directory (mk "ftp://host/a/" "") "b" ;;
   change_directory f "..") = Ok (mk "ftp://host/a/" "").
Proof.
  apply (descend_then_ascend (mk "ftp://host/a/" "") "b").
  - reflexivity.
  - vm_compute. reflexivity.
  - vm_compute. reflexivity.
  - discriminate.
  - discriminate.
  - reflexivity.
Defined.

End RemotePath.

(** ** The listing parser *)

Section Parser.

Import FtpClient.

(** C2: the pattern has two fields between the size and the name, so
    on a line with the usual three date and time fields the captured
    name starts at the third; a line that does not match is kept whole
    as a file of size 0. *)
Theorem parse_ftp_entry_examples :
  parse_ftp_entry "drwxr-xr-x 2 user group 4096 Jan 1 00:00 subdir"
  = Ok (mk_entry "00:00 subdir" true 4096)
  /\ parse_ftp_entry "not a listing line"
     = Ok (mk_entry "not a listing line" false 0).
Proof. split; vm_compute; reflexivity. Qed.

(** With two fields after the size the name is the rest of the line,
    spaces included. *)
Example parse_two_date_fields :
  parse_ftp_entry "-rw-r--r-- 1 user group 17 Jan 1 My File.txt"
  = Ok (mk_entry "My File.txt" false 17).
Proof. vm_compute. reflexivity. Qed.

Example stoull_max : Conv.stoull "18446744073709551615" = Ok (2 ^ 64 - 1).
Proof. vm_compute. reflexivity. Qed.

Lemma substring_prefix (pre rest : string) :
  String.substring 0 (String.length (pre ++ rest) - String.length rest)
                   (pre ++ rest) = pre.
Proof.
  rewrite length_app.
  replace (String.length pre + String.length rest - String.length rest)%nat
    with (String.length pre) by lia.
  apply substring_app.
Qed.

(** What a repetition consumed, when the match went through: a
    non-empty run of the class, and the continuation took the rest. *)
Lemma plus_k_inv {A : Type} (cs : Regex.charset) (s : string)
      (k : string -> option A) (r : A) :
  Regex.plus_k cs s k = Some r ->
  exists pre rest,
    s = pre ++ rest /\ pre <> "" /\ Str.all cs pre = true /\ k rest = Some r.
Proof.
  induction s as [|c s IH]; simpl; [discriminate|].
  destruct (cs c) eqn:Ec; [|discriminate].
  destruct (Regex.plus_k cs s k) as [r'|] eqn:E.
  - intros [= ->]. destruct (IH eq_refl) as (pre & rest & -> & _ & Hall & Hk).
    exists (String c pre), rest. simpl. rewrite Ec, Hall.
    repeat split; [discriminate | exact Hk].
  - intros Hk. exists (String c ""), s. simpl. rewrite Ec.
    repeat split; [discriminate | exact Hk].
Qed.

(** The shape of every line the pattern matches, and what the three
    groups hold. *)
Lemma regex_match_inv (line : string) (m : Regex.smatch) :
  Regex.regex_match line re = Some m ->
  exists perms w1 links w2 user w3 group w4 size w5 f1 w6 f2 w7 name,
    line = perms ++ w1 ++ links ++ w2 ++ user ++ w3 ++ group ++ w4
             ++ size ++ w5 ++ f1 ++ w6 ++ f2 ++ w7 ++ name
    /\ m = [(3%nat, name); (2%nat, size); (1%nat, perms)]
    /\ perms <> "" /\ Str.all (Regex.one_of "drwx-") perms = true
    /\ size <> "" /\ Str.all Conv.isdigit size = true
    /\ f1 <> "" /\ Str.all Regex.non_space f1 = true
    /\ f2 <> "" /\ Str.all Regex.non_space f2 = true
    /\ w7 <> "" /\ Str.all Conv.isspace w7 = true
    /\ name <> "" /\ Str.all Regex.any name = true.
Proof.
  unfold Regex.regex_match, re. cbn [Regex.seq Regex.exec]. intros H.
  apply plus_k_inv in H as (perms & r1 & -> & Hp1 & Hp2 & H).
  rewrite substring_prefix in H.
  apply plus_k_inv in H as (w1 & r2 & -> & _ & _ & H).
  apply plus_k_inv in H as (links & r3 & -> & _ & _ & H).
  apply plus_k_inv in H as (w2 & r4 & -> & _ & _ & H).
  apply plus_k_inv in H as (user & r5 & -> & _ & _ & H).
  apply plus_k_inv in H as (w3 & r6 & -> & _ & _ & H).
  apply plus_k_inv in H as (group & r7 & -> & _ & _ & H).
  apply plus_k_inv in H as (w4 & r8 & -> & _ & _ & H).
  apply plus_k_inv in H as (size & r9 & -> & Hs1 & Hs2 & H).
  rewrite substring_prefix in H.
  apply plus_k_inv in H as (w5 & r10 & -> & _ & _ & H).
  apply plus_k_inv in H as (f1 & r11 & -> & Hf1 & Hf1' & H).
  apply plus_k_inv in H as (w6 & r12 & -> & _ & _ & H).
  apply plus_k_inv in H as (f2 & r13 & -> & Hf2 & Hf2' & H).
  apply plus_k_inv in H as (w7 & r14 & -> & Hw7 & Hw7' & H).
  apply plus_k_inv in H as (name & r15 & -> & Hn1 & Hn2 & H).
  rewrite substring_prefix in H.
  destruct r15; [|discriminate]. injection H as <-.
  rewrite app_empty_r in *.
  exists perms, w1, links, w2, user, w3, group, w4, size, w5, f1, w6, f2, w7, name.
  repeat split; assumption.
Qed.

Lemma digit_not_space (c : ascii) :
  Conv.isdigit c = true -> Conv.isspace c = false.
Proof.
  unfold Conv.isdigit, Conv.isspace. intros H.
  apply andb_true_iff in H as [H1 H2].
  apply N.leb_le in H1. apply N.leb_le in H2.
  apply orb_false_iff. split.
  - apply N.eqb_neq. lia.
  - apply andb_false_iff. right. apply N.leb_gt. lia.
Qed.

Lemma digit_not_sign (c : ascii) :
  Conv.isdigit c = true ->
  Ascii.eqb c "-" = false /\ Ascii.eqb c "+" = false.
Proof.
  intros H. split; apply Ascii.eqb_neq; intros ->; discriminate.
Qed.

Lemma digits_all (s : string) (acc : Z) :
  Str.all Conv.isdigit s = true ->
  Conv.digits s (Some acc) = Some (Conv.decimal s acc).
Proof.
  revert acc. induction s as [|c s IH]; intros acc; simpl; [reflexivity|].
  intros H. apply andb_true_iff in H as [Hc Hs]. rewrite Hc. now apply IH.
Qed.

(** On a non-empty string of digits [stoull] gives the number written,
    or throws [out_of_range] when it does not fit 64 bits. *)
Lemma stoull_digits (s : string) :
  s <> "" -> Str.all Conv.isdigit s = true ->
  Conv.stoull s
  = if Conv.ULLONG_MAX <? Conv.decimal s 0 then Throw out_of_range
    else Ok (Conv.decimal s 0).
Proof.
  destruct s as [|c s]; [congruence|]. intros _ H.
  simpl in H. apply andb_true_iff in H as [Hc Hs].
  unfold Conv.stoull. simpl Conv.skip_space.
  rewrite (digit_not_space c Hc).
  destruct (digit_not_sign c Hc) as [-> ->].
  simpl Conv.digits. rewrite Hc, (digits_all _ _ Hs). reflexivity.
Qed.

(** The parser on any line: the fallback entry when the pattern does
    not match; otherwise the entry of the three groups, unless the size
    does not fit 64 bits, in which case [std::out_of_range] leaves
    [parse_ftp_entry].  It has no other outcome. *)
Lemma parse_ftp_entry_cases (line : string) :
  match Regex.regex_match line re with
  | None => parse_ftp_entry line = Ok (mk_entry line false 0)
  | Some m =>
      exists c,
        Str.front (Regex.sub m 1) = Ok c /\
        parse_ftp_entry line
        = if Conv.ULLONG_MAX <? Conv.decimal (Regex.sub m 2) 0
          then Throw out_of_range
          else Ok (mk_entry (Regex.sub m 3) (Ascii.eqb c "d")
                            (Conv.decimal (Regex.sub m 2) 0))
  end.
Proof.
  unfold parse_ftp_entry.
  destruct (Regex.regex_match line re) as [m|] eqn:E; [|reflexivity].
  destruct (regex_match_inv _ _ E)
    as (perms & w1 & links & w2 & user & w3 & group & w4 & size & w5 & f1
        & w6 & f2 & w7 & name & _ & -> & Hp & _ & Hs1 & Hs2 & _).
  cbn [Regex.sub Nat.eqb].
  rewrite (stoull_digits size Hs1 Hs2).
  destruct perms as [|c perms]; [congruence|]. exists c.
  split; [reflexivity|].
  now destruct (Conv.ULLONG_MAX <? Conv.decimal size 0).
Qed.

Lemma plus_k_stop {A : Type} (cs : Regex.charset) (s : string)
      (k : string -> option A) :
  Regex.starts_outside cs s = true -> Regex.plus_k cs s k = None.
Proof.
  destruct s as [|c s]; simpl; [reflexivity|].
  now destruct (cs c).
Qed.

(** A repetition takes the whole run in front of it when the
    continuation accepts what follows. *)
Lemma plus_k_greedy {A : Type} (cs : Regex.charset) (pre rest : string)
      (k : string -> option A) (r : A) :
  Regex.run_of cs pre ->
  Regex.starts_outside cs rest = true ->
  k rest = Some r ->
  Regex.plus_k cs (pre ++ rest) k = Some r.
Proof.
  intros [Hne Hall] Hout Hk. induction pre as [|c pre IH]; [congruence|].
  simpl in *. apply andb_true_iff in Hall as [Hc Hall]. rewrite Hc.
  destruct pre as [|c' pre].
  - simpl. now rewrite (plus_k_stop cs rest k Hout).
  - rewrite IH; [reflexivity | discriminate | exact Hall].
Qed.

Lemma plus_k_all {A : Type} (cs : Regex.charset) (s : string)
      (k : string -> option A) (r : A) :
  Regex.run_of cs s -> k "" = Some r -> Regex.plus_k cs s k = Some r.
Proof.
  intros Hs Hk. rewrite <- (app_empty_r s).
  now apply plus_k_greedy.
Qed.

Lemma substring_whole (s : string) :
  String.substring 0 (String.length s - String.length "") s = s.
Proof.
  simpl String.length. rewrite Nat.sub_0_r.
  rewrite <- (app_empty_r s) at 2. apply substring_app.
Qed.

Lemma starts_outside_app (cs cs' : Regex.charset) (s t : string) :
  Regex.run_of cs s ->
  (forall c, cs c = true -> cs' c = false) ->
  Regex.starts_outside cs' (s ++ t) = true.
Proof.
  intros [Hne Hall] Hd. destruct s as [|c s]; [congruence|].
  simpl in *. apply andb_true_iff in Hall as [Hc _].
  now rewrite (Hd c Hc).
Qed.

Lemma space_not_perm (c : ascii) :
  Regex.space c = true -> Regex.one_of "drwx-" c = false.
Proof.
  intros H. unfold Regex.one_of. cbn [Str.mem].
  repeat match goal with
    | |- context [Ascii.eqb ?a c] =>
        destruct (Ascii.eqb_spec a c) as [<-|_]; [discriminate H|]
    end.
  reflexivity.
Qed.

Lemma space_not_digit (c : ascii) :
  Regex.space c = true -> Regex.digit c = false.
Proof.
  intros H. destruct (Regex.digit c) eqn:E; [|reflexivity].
  apply digit_not_space in E. unfold Regex.space in H. congruence.
Qed.

Lemma space_not_non_space (c : ascii) :
  Regex.space c = true -> Regex.non_space c = false.
Proof. unfold Regex.non_space, Regex.space. now intros ->. Qed.

Lemma non_space_not_space (c : ascii) :
  Regex.non_space c = true -> Regex.space c = false.
Proof. unfold Regex.non_space, Regex.space. now destruct (Conv.isspace c). Qed.

(** A line of seven fields and a name, separated by runs of white
    space, matches, and the name group is all that follows the second
    field after the size. *)
Lemma regex_match_fields
      (perms w1 links w2 user w3 group w4 size w5 f1 w6 f2 w7 name : string) :
  Regex.run_of (Regex.one_of "drwx-") perms -> Regex.run_of Regex.space w1 ->
  Regex.run_of Regex.digit links -> Regex.run_of Regex.space w2 ->
  Regex.run_of Regex.non_space user -> Regex.run_of Regex.space w3 ->
  Regex.run_of Regex.non_space group -> Regex.run_of Regex.space w4 ->
  Regex.run_of Regex.digit size -> Regex.run_of Regex.space w5 ->
  Regex.run_of Regex.non_space f1 -> Regex.run_of Regex.space w6 ->
  Regex.run_of Regex.non_space f2 -> Regex.run_of Regex.space w7 ->
  Regex.run_of Regex.any name -> Regex.starts_outside Regex.space name = true ->
  Regex.regex_match
    (perms ++ w1 ++ links ++ w2 ++ user ++ w3 ++ group ++ w4
       ++ size ++ w5 ++ f1 ++ w6 ++ f2 ++ w7 ++ name) re
  = Some [(3%nat, name); (2%nat, size); (1%nat, perms)].
Proof.
  intros Hperms Hw1 Hlinks Hw2 Huser Hw3 Hgroup Hw4 Hsize Hw5 Hf1 Hw6 Hf2 Hw7
         Hname Hstart.
  unfold Regex.regex_match, re. cbn [Regex.seq Regex.exec].
  apply plus_k_greedy;
    [assumption | eapply starts_outside_app; eauto using space_not_perm |].
  apply plus_k_greedy;
    [assumption | eapply starts_outside_app; eauto using digit_not_space |].
  apply plus_k_greedy;
    [assumption | eapply starts_outside_app; eauto using space_not_digit |].
  apply plus_k_greedy;
    [assumption | eapply starts_outside_app; eauto using non_space_not_space |].
  apply plus_k_greedy;
    [assumption | eapply starts_outside_app; eauto using space_not_non_space |].
  apply plus_k_greedy;
    [assumption | eapply starts_outside_app; eauto using non_space_not_space |].
  apply plus_k_greedy;
    [assumption | eapply starts_outside_app; eauto using space_not_non_space |].
  apply plus_k_greedy;
    [assumption | eapply starts_outside_app; eauto using digit_not_space |].
  apply plus_k_greedy;
    [assumption | eapply starts_outside_app; eauto using space_not_digit |].
  apply plus_k_greedy;
    [assumption | eapply starts_outside_app; eauto using non_space_not_space |].
  apply plus_k_greedy;
    [assumption | eapply starts_outside_app; eauto using space_not_non_space |].
  apply plus_k_greedy;
    [assumption | eapply starts_outside_app; eauto using non_space_not_space |].
  apply plus_k_greedy;
    [assumption | eapply starts_outside_app; eauto using space_not_non_space |].
  apply plus_k_greedy; [assumption | exact Hstart |].
  apply plus_k_all; [assumption|].
  rewrite substring_whole, (substring_prefix perms), (substring_prefix size).
  reflexivity.
Qed.

(** The entry of such a line: the name is kept as it stands, white
    space included, from the third field after the size on. *)
Lemma parse_ftp_entry_fields
      (perms w1 links w2 user w3 group w4 size w5 f1 w6 f2 w7 name : string)
      (c : ascii) :
  Regex.run_of (Regex.one_of "drwx-") perms -> Regex.run_of Regex.space w1 ->
  Regex.run_of Regex.digit links -> Regex.run_of Regex.space w2 ->
  Regex.run_of Regex.non_space user -> Regex.run_of Regex.space w3 ->
  Regex.run_of Regex.non_space group -> Regex.run_of Regex.space w4 ->
  Regex.run_of Regex.digit size -> Regex.run_of Regex.space w5 ->
  Regex.run_of Regex.non_space f1 -> Regex.run_of Regex.space w6 ->
  Regex.run_of Regex.non_space f2 -> Regex.run_of Regex.space w7 ->
  Regex.run_of Regex.any name -> Regex.starts_outside Regex.space name = true ->
  Str.front perms = Ok c ->
  Conv.decimal size 0 <= Conv.ULLONG_MAX ->
  parse_ftp_entry
    (perms ++ w1 ++ links ++ w2 ++ user ++ w3 ++ group ++ w4
       ++ size ++ w5 ++ f1 ++ w6 ++ f2 ++ w7 ++ name)
  = Ok (mk_entry name (Ascii.eqb c "d") (Conv.decimal size 0)).
Proof.
  intros Hperms Hw1 Hlinks Hw2 Huser Hw3 Hgroup Hw4 Hsize Hw5 Hf1 Hw6 Hf2 Hw7
         Hname Hstart Hc Hfit.
  unfold parse_ftp_entry.
  rewrite regex_match_fields by assumption.
  cbn [Regex.sub Nat.eqb].
  destruct Hsize as [Hs1 Hs2]. rewrite (stoull_digits size Hs1 Hs2).
  replace (Conv.ULLONG_MAX <? Conv.decimal size 0) with false
    by (symmetry; apply Z.ltb_ge; exact Hfit).
  cbn [bind]. now rewrite Hc.
Qed.

Example parse_ftp_entry_fields_applied :
  parse_ftp_entry "drwxr-xr-x 2 user group 4096 Jan 1 00:00 subdir"
  = Ok (mk_entry "00:00 subdir" true 4096).
Proof.
  apply (parse_ftp_entry_fields "drwxr-xr-x" " " "2" " " "user" " " "group" " "
           "4096" " " "Jan" " " "1" " " "00:00 subdir" "d");
    try (split; [discriminate | reflexivity]); try reflexivity.
  vm_compute. discriminate.
Qed.

(** C7: a matching line whose size field exceeds [ULLONG_MAX] makes
    [std::stoull] throw; nothing in [parse_ftp_entry], in the listing
    loop or in [main] catches it, so the rows after it are not printed
    and the program terminates. *)
Theorem parse_ftp_entry_size_overflow :
  let line := "-rw-r--r-- 1 user group 18446744073709551616 Jan 1 big.bin" in
  let list_data := "first.txt" ++ String "010" line ++ String "010" "last.txt" in
  parse_ftp_entry line = Throw out_of_range
  /\ list_rows list_data
     = ([print_row "first.txt" false 0], Throw out_of_range)
  /\ Shell.run (Shell.serving list_data) 1 (Shell.start tt "ls")
     = Shell.Terminate out_of_range.
Proof. repeat split; vm_compute; reflexivity. Qed.

End Parser.

(** ** The size formatter *)

Section Format.

Import Fmt.

Lemma scale_loop_index (fuel : nat) (d : Q) (i : Z) :
  0 <= i <= 4 ->
  let r := scale_loop fuel d i in i <= snd r <= 4.
Proof.
  revert d i. induction fuel as [|fuel IH]; intros d i Hi; simpl; [lia|].
  destruct (Qle_bool 1024 d && (i <? 4)) eqn:E; simpl; [|lia].
  apply andb_true_iff in E as [_ E]. apply Z.ltb_lt in E.
  specialize (IH (d / 1024)%Q (i + 1)). simpl in IH. lia.
Qed.

(** Four iterations are all the loop can make: more fuel changes
    nothing. *)
Lemma scale_loop_fuel (k fuel : nat) (d : Q) (i : Z) :
  (Z.to_nat (4 - i) <= fuel)%nat ->
  scale_loop (fuel + k) d i = scale_loop fuel d i.
Proof.
  revert d i. induction fuel as [|fuel IH]; intros d i Hf.
  - simpl. destruct k as [|k]; simpl; [reflexivity|].
    replace (i <? 4) with false by (symmetry; apply Z.ltb_ge; lia).
    now rewrite andb_false_r.
  - simpl. destruct (Qle_bool 1024 d && (i <? 4)); [|reflexivity].
    apply IH. lia.
Qed.

(** C10: the values of the formatter on the sizes the specification
    lists, and the bound of four on the loop. *)
Theorem format_size_human_values :
  format_size_human 0 = "0 B"
  /\ format_size_human 1023 = "1023 B"
  /\ format_size_human 1024 = "1.0 KB"
  /\ format_size_human 1536 = "1.5 KB"
  /\ format_size_human (1024 ^ 4) = "1.0 TB"
  /\ (forall (k : nat) (d : Q), scale_loop (4 + k) d 0 = scale_loop 4 d 0)
  /\ (forall d : Q, 0 <= snd (scale_loop 4 d 0) <= 4).
Proof.
  repeat split; try (vm_compute; reflexivity).
  - intros k d. apply (scale_loop_fuel k 4 d 0). simpl. lia.
  - pose proof (scale_loop_index 4 d 0). simpl in *. lia.
  - pose proof (scale_loop_index 4 d 0). simpl in *. lia.
Qed.

Example format_more :
  format_size_human 1048575 = "1024.0 KB"
  /\ format_size_human (5 * 1024 ^ 5) = "5120.0 TB"
  /\ format_size_human (2 ^ 64 - 1) = "16777216.0 TB"
  /\ format_size_human 1100 = "1.1 KB".
Proof. repeat split; vm_compute; reflexivity. Qed.

End Format.

(** ** Listing order *)

Section Listing.

Import LocalFileManager.

Lemma ascii_compare_trans (a b c : ascii) :
  Ascii.compare a b = Lt -> Ascii.compare b c = Lt -> Ascii.compare a c = Lt.
Proof.
  unfold Ascii.compare. rewrite !N.compare_lt_iff. apply N.lt_trans.
Qed.

Lemma string_compare_trans (s1 s2 s3 : string) :
  String.compare s1 s2 = Lt -> String.compare s2 s3 = Lt ->
  String.compare s1 s3 = Lt.
Proof.
  revert s2 s3. induction s1 as [|a s1 IH]; intros [|b s2] [|c s3];
    simpl; try congruence.
  destruct (Ascii.compare a b) eqn:Eab; try discriminate;
    destruct (Ascii.compare b c) eqn:Ebc; try discriminate; intros H1 H2.
  - apply Ascii.compare_eq_iff in Eab, Ebc. subst.
    assert (E : Ascii.compare c c = Eq)
      by (unfold Ascii.compare; apply N.compare_refl).
    rewrite E. eauto.
  - apply Ascii.compare_eq_iff in Eab. subst. now rewrite Ebc.
  - apply Ascii.compare_eq_iff in Ebc. subst. now rewrite Eab.
  - now rewrite (ascii_compare_trans _ _ _ Eab Ebc).
Qed.

Lemma ltb_asym (s1 s2 : string) :
  String.ltb s1 s2 = true -> String.ltb s2 s1 = false.
Proof.
  unfold String.ltb. rewrite (String.compare_antisym s1 s2).
  now destruct (String.compare s2 s1).
Qed.

(** If neither [s3 < s2] nor [s2 < s1] then not [s3 < s1]. *)
Lemma ltb_negtrans (s1 s2 s3 : string) :
  String.ltb s3 s2 = false -> String.ltb s2 s1 = false ->
  String.ltb s3 s1 = false.
Proof.
  unfold String.ltb. intros H32 H21.
  destruct (String.compare s3 s1) eqn:E31; try reflexivity.
  destruct (String.compare s2 s1) eqn:E21; try discriminate.
  - apply String.compare_eq_iff in E21. subst. now rewrite E31 in H32.
  - rewrite String.compare_antisym in E21.
    destruct (String.compare s1 s2) eqn:E12; try discriminate.
    now rewrite (string_compare_trans _ _ _ E31 E12) in H32.
Qed.

Lemma compareFiles_asym (a b : FileEntry) :
  compareFiles a b = true -> compareFiles b a = false.
Proof.
  unfold compareFiles.
  destruct (is_directory a), (is_directory b); simpl;
    try congruence; apply ltb_asym.
Qed.

Lemma compareFiles_negtrans (a b c : FileEntry) :
  compareFiles c b = false -> compareFiles b a = false ->
  compareFiles c a = false.
Proof.
  unfold compareFiles.
  destruct (is_directory a), (is_directory b), (is_directory c); simpl;
    try congruence; apply ltb_negtrans.
Qed.

Lemma insert_perm (x : FileEntry) (l : list FileEntry) :
  Permutation (x :: l) (insert compareFiles x l).
Proof.
  induction l as [|y l IH]; simpl; [reflexivity|].
  destruct (compareFiles y x); [|reflexivity].
  rewrite perm_swap. now constructor.
Qed.

Lemma sort_perm (l : list FileEntry) : Permutation l (sort compareFiles l).
Proof.
  induction l as [|x l IH]; simpl; [constructor|].
  rewrite <- insert_perm. now constructor.
Qed.

Lemma insert_sorted (x : FileEntry) (l : list FileEntry) :
  StronglySorted in_order l ->
  StronglySorted in_order (insert compareFiles x l).
Proof.
  induction 1 as [|y l Hs IH Hall]; simpl.
  - repeat constructor.
  - destruct (compareFiles y x) eqn:E.
    + constructor; [exact IH|].
      rewrite Forall_forall in *. intros z Hz.
      apply (Permutation_in _ (Permutation_sym (insert_perm x l))) in Hz.
      destruct Hz as [<- | Hz]; [|now apply Hall].
      now apply compareFiles_asym.
    + constructor; [now constructor|].
      constructor; [exact E|].
      rewrite Forall_forall in *. intros z Hz.
      unfold in_order. eapply compareFiles_negtrans; [apply Hall; exact Hz | exact E].
Qed.

(** The local listing is sorted by [compareFiles] and shows every
    entry of the directory once. *)
Lemma sort_sorted (l : list FileEntry) :
  StronglySorted in_order (sort compareFiles l).
Proof.
  induction l as [|x l IH]; simpl; [constructor | now apply insert_sorted].
Qed.

Lemma ltb_total (s1 s2 : string) :
  String.ltb s1 s2 = false -> String.ltb s2 s1 = false -> s1 = s2.
Proof.
  unfold String.ltb. rewrite (String.compare_antisym s1 s2).
  destruct (String.compare s2 s1) eqn:E; simpl; try discriminate.
  intros _ _. symmetry. now apply String.compare_eq_iff.
Qed.

(** Two sorted arrangements of the same entries are the same list when
    no two of the entries are equivalent: the order of the output of
    [std::sort] is then fixed, whatever algorithm the library runs. *)
Lemma sorted_unique (l1 l2 : list FileEntry) :
  (forall a b, In a l1 -> In b l1 -> in_order a b -> in_order b a -> a = b) ->
  StronglySorted in_order l1 -> StronglySorted in_order l2 ->
  Permutation l1 l2 -> l1 = l2.
Proof.
  revert l2. induction l1 as [|a l1 IH]; intros l2 Hanti H1 H2 Hp.
  - now apply Permutation_nil in Hp.
  - destruct l2 as [|b l2];
      [apply Permutation_sym, Permutation_nil in Hp; discriminate|].
    inversion H1 as [|? ? Hs1 Ha]; inversion H2 as [|? ? Hs2 Hb]; subst.
    rewrite Forall_forall in Ha, Hb.
    assert (E : a = b).
    { assert (Hina : In a (b :: l2))
        by (apply (Permutation_in _ Hp); now left).
      assert (Hinb : In b (a :: l1))
        by (apply (Permutation_in _ (Permutation_sym Hp)); now left).
      destruct Hina as [->|Hina]; [reflexivity|].
      destruct Hinb as [->|Hinb]; [reflexivity|].
      apply Hanti; [now left | now right | now apply Ha | now apply Hb]. }
    subst b. f_equal. apply IH; try assumption.
    + intros x y Hx Hy. apply Hanti; now right.
    + now apply Permutation_cons_inv in Hp.
Qed.

(** The entries of one directory have distinct names; any sorted
    arrangement of them is the one [sort] computes. *)
Lemma sort_unique (l l' : list FileEntry) :
  (forall a b, In a l -> In b l -> name a = name b -> a = b) ->
  Permutation l l' -> StronglySorted in_order l' ->
  l' = sort compareFiles l.
Proof.
  intros Hnames Hp Hs. apply sorted_unique.
  - intros a b Ha Hb Hab Hba.
    apply Hnames;
      try (apply (Permutation_in _ (Permutation_sym Hp)); assumption).
    unfold in_order, compareFiles in *.
    destruct (is_directory a), (is_directory b); simpl in *;
      try discriminate; now apply ltb_total.
  - exact Hs.
  - apply sort_sorted.
  - rewrite <- Hp. apply sort_perm.
Qed.

(** In a sorted listing no file stands before a directory, and names
    within a group do not descend. *)
Lemma in_order_spec (a b : FileEntry) :
  in_order a b ->
  (is_directory b = true -> is_directory a = true)
  /\ (is_directory a = is_directory b -> String.ltb (name b) (name a) = false).
Proof.
  unfold in_order, compareFiles.
  destruct (is_directory a), (is_directory b); simpl; intuition congruence.
Qed.

Example local_listing_order :
  map row_name (list_rows [dirB; fileA; dirA; fileB])
  = ["dirA"; "dirB"; "fileA"; "fileB"].
Proof. vm_compute. reflexivity. Qed.

(** C5, the remote listing: [FtpClient::list_directory] prints each
    line as it parses it and never sorts, so the four entries come
    out in the order the server sent them, a file before a
    directory. *)
Theorem remote_listing_keeps_server_order :
  let list_data :=
    "drwxr-xr-x 2 user group 4096 Jan 1 dirB" ++ String "010"
    ("-rw-r--r-- 1 user group 10 Jan 1 fileA" ++ String "010"
    ("drwxr-xr-x 2 user group 4096 Jan 1 dirA" ++ String "010"
    ("-rw-r--r-- 1 user group 2048 Jan 1 fileB" ++ String "010" ""))) in
  let rows := fst (FtpClient.list_rows list_data) in
  FtpClient.list_rows list_data = (rows, Ok tt)
  /\ map row_name rows = ["dirB"; "fileA"; "dirA"; "fileB"]
  /\ map type_str rows = ["DIR"; "FILE"; "DIR"; "FILE"]
  /\ map row_name (list_rows [dirB; fileA; dirA; fileB])
     = ["dirA"; "dirB"; "fileA"; "fileB"].
Proof. repeat split; vm_compute; reflexivity. Qed.

End Listing.

(** ** The prompt *)

Section PromptFacts.

Lemma filename_from_slash (p cur : string) :
  Path.filename_from (p ++ "/") cur = "".
Proof.
  revert cur. induction p as [|a p IH]; intros cur; simpl; [reflexivity|].
  destruct (Ascii.eqb a "/"); apply IH.
Qed.

(** The file name of a path that ends with a separator is empty. *)
Lemma filename_trailing_slash (p : string) :
  Str.back p = Ok "/"%char -> Path.filename p = "".
Proof.
  intros H. destruct (back_inv _ _ H) as [p0 ->]. apply filename_from_slash.
Qed.

(** After any [connect] or [cd] the base ends with a separator, and
    the prompt then shows no remote segment at all. *)
Lemma prompt_after_connect
      (W : Type) (C : Shell.collaborators W) (s : @Shell.state W) :
  Str.back (FtpClient.base_url (Shell.ftp_client s)) = Ok "/"%char ->
  Shell.prompt C s
  = String "010" "local:" ++ Path.filename (Shell.current_path C (Shell.world s))
      ++ " | remote:" ++ "> ".
Proof.
  intros H. unfold Shell.prompt. now rewrite (filename_trailing_slash _ H).
Qed.

Example filename_examples :
  Path.filename "/home/user" = "user"
  /\ Path.filename "/home/user/" = ""
  /\ Path.filename "/" = ""
  /\ Path.filename "" = ""
  /\ Path.filename "ftp://host/a" = "a".
Proof. repeat split. Qed.

(** C8: [fs::path(base_url).filename()] is taken of a base that ends
    with a separator; for "ftp://host/a/" it is empty, so the prompt
    shows nothing after "remote:". *)
Theorem prompt_remote_segment_empty
        (W : Type) (C : Shell.collaborators W) (w : W)
        (userpass line : string) (cin : Shell.istream)
        (out : list Shell.event) :
  Path.filename "ftp://host/a/" = ""
  /\ Shell.prompt C
       (Shell.mk_state w (FtpClient.mk "ftp://host/a/" userpass) cin line out)
     = String "010" "local:" ++ Path.filename (Shell.current_path C w)
         ++ " | remote:" ++ "> ".
Proof. split; reflexivity. Qed.

End PromptFacts.

(** ** The read loop *)

Section Loop.

Import Shell.

Context {W : Type} (C : collaborators W).

(** Once the stream is not good, [getline] changes neither the stream
    nor the line. *)
Lemma getline_not_good (cin : istream) (str : string) :
  good cin = false -> getline cin str = (cin, str).
Proof. intros H. unfold getline. now rewrite H. Qed.

Lemma run_result_continue (r : result (@state W)) (s : @state W) :
  run_result r = Continue s -> r = Ok s.
Proof. destruct r; simpl; congruence. Qed.

Ltac break_if :=
  match goal with
  | |- context [if ?b then _ else _] => destruct b eqn:?
  end.

Ltac break_call :=
  match goal with
  | |- context [curl_list C ?w ?u] => destruct (curl_list C w u) as [? [?|]]
  | |- context [curl_do C ?w ?o] => destruct (curl_do C w o)
  | |- context [fs_do C ?w ?o] => destruct (fs_do C w o)
  | |- context [directory_entries C ?w] => destruct (directory_entries C w)
  | |- context [FtpClient.list_rows ?d] =>
      destruct (FtpClient.list_rows d) as [? [[]| |]]
  | |- context [FtpClient.ensure_trailing_slash ?u] =>
      destruct (FtpClient.ensure_trailing_slash u)
  | |- context [FtpClient.change_directory ?f ?d] =>
      destruct (FtpClient.change_directory f d)
  end.

(** Only the command [exit] makes an iteration return, and no
    iteration touches the input stream or the line after they were
    read. *)
Lemma dispatch_inv (s : @state W) (args : list string) :
  match dispatch C s args with
  | Continue s' => cin s' = cin s /\ command_line s' = command_line s
  | Return code _ =>
      code = 0 /\ exists arg0 rest,
        args = arg0 :: rest /\ lower_string arg0 = "exit"
  | UB | Terminate _ => True
  end.
Proof.
  unfold dispatch. destruct args as [|arg0 rest]; [now split|].
  rewrite transform_tolower_spec.
  destruct (Str.all Conv.isascii arg0); [|exact I].
  destruct (String.eqb (lower_string arg0) "exit") eqn:Ex.
  { apply String.eqb_eq in Ex. split; [reflexivity|]. now exists arg0, rest. }
  repeat break_if;
    unfold ftp_list_directory, local_list_directory, remote_call,
      local_call, full_url, FtpClient.connect;
    repeat (break_call; simpl); auto.
Qed.

Lemma step_at_eof (s : @state W) :
  good (cin s) = false ->
  command_of (command_line s) <> Some "exit" ->
  match step C s with
  | Continue s' => cin s' = cin s /\ command_line s' = command_line s
  | Return _ _ => False
  | UB | Terminate _ => True
  end.
Proof.
  intros Hg Hc. unfold step. cbn [emit cin command_line world ftp_client out].
  rewrite (getline_not_good _ _ Hg).
  match goal with |- context [dispatch C ?s0 ?a] =>
    pose proof (dispatch_inv s0 a) as H; destruct (dispatch C s0 a) end;
    auto.
  destruct H as [_ [arg0 [rest [E1 E2]]]].
  apply Hc. unfold command_of. now rewrite E1, E2.
Qed.

(** After the end of the input, with a last line that is not [exit],
    [main] never returns. *)
Lemma eof_never_returns (n : nat) (s : @state W) :
  good (cin s) = false ->
  command_of (command_line s) <> Some "exit" ->
  forall code s', run C n s <> Return code s'.
Proof.
  revert s. induction n as [|n IH]; intros s Hg Hc code s'; simpl;
    [discriminate|].
  pose proof (step_at_eof s Hg Hc) as H.
  destruct (step C s) as [s1| | |]; try discriminate; [|contradiction].
  destruct H as [E1 E2]. apply IH; congruence.
Qed.

(** The state after the end of an empty input was met [n] times. *)
Lemma spin_on_empty_line (n : nat) (s : @state W) :
  good (cin s) = false ->
  command_line s = "" ->
  run C n s
  = Continue (mk_state (world s) (ftp_client s) (cin s) ""
                       (out s ++ repeat (Prompt (prompt C s)) n)).
Proof.
  revert s. induction n as [|n IH]; intros [w f i l o] Hg Hl;
    cbn [cin command_line world ftp_client out] in *; subst l.
  - simpl. now rewrite List.app_nil_r.
  - cbn [run]. unfold step. cbn [emit cin command_line world ftp_client out].
    rewrite (getline_not_good _ _ Hg).
    cbn [split_command split_from dispatch].
    rewrite IH by (first [exact Hg | reflexivity]).
    cbn [cin command_line world ftp_client out repeat].
    rewrite <- List.app_assoc. reflexivity.
Qed.

Lemma until_newline_some (s cur line rest : string) :
  until_newline s cur = Some (line, rest) ->
  input_lines s cur = line :: input_lines rest "".
Proof.
  revert cur. induction s as [|c s IH]; intros cur; simpl; [discriminate|].
  destruct (Ascii.eqb c "010"); [|apply IH].
  now intros [= -> ->].
Qed.

Lemma until_newline_none (s cur : string) :
  until_newline s cur = None -> input_lines s cur = [cur ++ s].
Proof.
  revert cur. induction s as [|c s IH]; intros cur; simpl.
  - now rewrite app_empty_r.
  - destruct (Ascii.eqb c "010"); [discriminate|].
    intros H. rewrite (IH _ H), sapp_assoc. reflexivity.
Qed.

(** An iteration whose line is the command [exit] returns 0. *)
Lemma step_exit (s : @state W) :
  command_of (snd (getline (cin s) (command_line s))) = Some "exit" ->
  exists s', step C s = Return 0 s'.
Proof.
  unfold step. cbn [emit cin command_line world ftp_client out].
  destruct (getline (cin s) (command_line s)) as [cin' line]. cbn [snd].
  unfold command_of.
  destruct (split_command line) as [|arg0 rest]; [discriminate|].
  intros [= Hc]. unfold dispatch.
  rewrite (transform_tolower_keyword _ _ Hc eq_refl). simpl. eauto.
Qed.

(** While no line of the input is the command [exit], [main] does not
    return, whatever the collaborators do: it runs on, or ends in
    undefined behaviour or an uncaught exception. *)
Lemma no_exit_never_returns (n : nat) (s : @state W) :
  good (cin s) = true ->
  (forall line, In line (input_lines (buffer (cin s)) "") ->
                command_of line <> Some "exit") ->
  forall code s', run C n s <> Return code s'.
Proof.
  revert s. induction n as [|n IH]; intros s Hg Hall code s'; simpl;
    [discriminate|].
  unfold step. cbn [emit cin command_line world ftp_client out].
  unfold getline. rewrite Hg.
  destruct (until_newline (buffer (cin s)) "") as [[line rest]|] eqn:E.
  - apply until_newline_some in E.
    match goal with |- context [dispatch C ?s0 ?a] =>
      pose proof (dispatch_inv s0 a) as H; destruct (dispatch C s0 a) as [s1| | |]
    end; try discriminate.
    + destruct H as [H1 H2]. cbn [cin command_line] in *.
      apply IH.
      * now rewrite H1.
      * rewrite H1. cbn [buffer]. intros l Hl. apply Hall.
        rewrite E. now right.
    + destruct H as [_ [arg0 [rest' [E1 E2]]]]. exfalso.
      apply (Hall line); [rewrite E; now left|].
      unfold command_of. now rewrite E1, E2.
  - apply until_newline_none in E. simpl in E.
    match goal with |- context [dispatch C ?s0 ?a] =>
      pose proof (dispatch_inv s0 a) as H; destruct (dispatch C s0 a) as [s1| | |]
    end; try discriminate.
    + destruct H as [H1 H2]. cbn [cin command_line] in *.
      apply eof_never_returns.
      * now rewrite H1.
      * rewrite H2. apply Hall. rewrite E. now left.
    + destruct H as [_ [arg0 [rest' [E1 E2]]]]. exfalso.
      apply (Hall (buffer (cin s))); [rewrite E; now left|].
      unfold command_of. now rewrite E1, E2.
Qed.

(** C3: on the empty input [main] never returns.  The first
    [getline] meets the end of the input and leaves the line empty,
    every later one fails, and each iteration only prints the prompt
    again. *)
Theorem eof_spins (w : W) (n : nat) :
  let p := Prompt (prompt C (start w "")) in
  run C (S n) (start w "")
  = Continue (mk_state w FtpClient.init (mk_istream "" false) ""
                       (Help :: p :: repeat p n))
  /\ forall code s', run C n (start w "") <> Return code s'.
Proof.
  split.
  - cbn [run]. unfold step, start.
    cbn [emit cin command_line world ftp_client out getline good buffer
         until_newline split_command split_from dispatch].
    rewrite spin_on_empty_line by reflexivity. reflexivity.
  - intros code s'. destruct n as [|n]; [discriminate|].
    cbn [run]. unfold step, start.
    cbn [emit cin command_line world ftp_client out getline good buffer
         until_newline split_command split_from dispatch].
    apply eof_never_returns; [reflexivity | discriminate].
Qed.

End Loop.

(** ** Further evaluations *)

Example trailing_count : Str.trailing "/" "a//b//" = 2%nat.
Proof. reflexivity. Qed.

Example ascend_one_level :
  FtpClient.change_directory (FtpClient.mk "ftp://host/a/b/" "") ".."
  = Ok (FtpClient.mk "ftp://host/a/" "").
Proof. vm_compute. reflexivity. Qed.

Example lines_of_listing :
  lines ("a" ++ String "010" ("" ++ String "010" "b")) = ["a"; ""; "b"].
Proof. vm_compute. reflexivity. Qed.

(** [help], then [EXIT] in capitals without a final newline: the loop
    returns 0 on the second line. *)
Example run_help_exit :
  Shell.run Shell.idle 3 (Shell.start tt ("help" ++ String "010" "EXIT"))
  = Shell.Return 0
      (Shell.mk_state tt FtpClient.init (Shell.mk_istream "" false) "EXIT"
         [Shell.Help; Shell.Prompt (String "010" "local:user | remote:> ");
          Shell.Help;
          Shell.Prompt (String "010" "local:user | remote:> ")]).
Proof. vm_compute. reflexivity. Qed.

(** [connect], [cd sub], [ls]: the listing is asked of
    "ftp://example.test/sub/". *)
Example connect_cd_ls :
  let input := "connect ftp://example.test/ anon:anon" ++ String "010"
               ("cd sub" ++ String "010" ("ls" ++ String "010" "")) in
  match Shell.run (Shell.serving "") 3 (Shell.start tt input) with
  | Shell.Continue s =>
      FtpClient.base_url (Shell.ftp_client s) = "ftp://example.test/sub/"
      /\ In (Shell.RemoteTable "ftp://example.test/sub/" []) (Shell.out s)
  | _ => False
  end.
Proof. vm_compute. intuition. Qed.

(** * More of the program *)

(** ** Remote paths *)

Section RemotePathMore.

Import FtpClient.

Lemma change_directory_dotdot (self : t) :
  change_directory self ".."
  = let last_slash :=
      Str.find_last_of (base_url self) "/"
                       (Str.size_sub (Str.size (base_url self)) 2) in
    if negb (last_slash =? Str.npos) && (5 <? last_slash) then
      Ok (mk (Str.substr0 (base_url self) (last_slash + 1))
             (user_password self))
    else if last_slash =? Str.npos then Ok self
    else
      u <- ensure_trailing_slash (base_url self) ;;
      b <- ensure_trailing_slash (u ++ "..") ;;
      Ok (mk b (user_password self)).
Proof. reflexivity. Qed.

(** X1: on a non-empty URL [ensure_trailing_slash] returns the URL
    itself or the URL with one separator added, the result ends with a
    separator, and a second application changes nothing. *)
Theorem ensure_trailing_slash_normalizes (url : string) :
  url <> "" ->
  exists u,
    ensure_trailing_slash url = Ok u
    /\ (u = url \/ u = url ++ "/")
    /\ Str.back u = Ok "/"%char
    /\ ensure_trailing_slash u = Ok u.
Proof.
  intros Hne. destruct (back_nonempty url Hne) as [c Hc].
  destruct (Ascii.eqb_spec c "/") as [->|Hn].
  - exists url. rewrite (ensure_kept _ Hc). auto.
  - exists (url ++ "/"). rewrite (ensure_added _ _ Hc Hn).
    repeat split; [now right | apply back_snoc |].
    apply ensure_kept, back_snoc.
Qed.

Lemma ensure_trailing_slash_normalizes_witness :
  exists u,
    ensure_trailing_slash "ftp://demo.wftpserver.com" = Ok u
    /\ (u = "ftp://demo.wftpserver.com" \/ u = "ftp://demo.wftpserver.com" ++ "/")
    /\ Str.back u = Ok "/"%char
    /\ ensure_trailing_slash u = Ok u.
Proof.
  apply (ensure_trailing_slash_normalizes "ftp://demo.wftpserver.com").
  discriminate.
Defined.

(** X2: [cd ..] removes exactly the last segment: from
    [parent ++ seg ++ "/"], where [parent] ends with a separator and is
    longer than the scheme prefix, it goes to [parent]. *)
Theorem ascend_strips_last_segment (parent seg userpass : string) :
  Str.back parent = Ok "/"%char ->
  6 < Str.size parent ->
  Str.mem "/" seg = false ->
  Str.size parent + Str.size seg + 1 < Str.size_max ->
  change_directory (mk (parent ++ seg ++ "/") userpass) ".."
  = Ok (mk parent userpass).
Proof.
  intros Hback Hlen Hmem Hsz.
  destruct (back_inv _ _ Hback) as [b0 ->].
  rewrite change_directory_dotdot. cbn [base_url user_password].
  rewrite !sapp_assoc.
  assert (Hsz' : Str.size (b0 ++ "/" ++ seg ++ "/") < Str.size_max).
  { unfold Str.size in *. rewrite !length_app in *.
    simpl String.length in *. lia. }
  cbv zeta. rewrite (find_last_of_descended b0 seg Hmem Hsz').
  unfold Str.size in *. rewrite !length_app in *. simpl String.length in *.
  replace (Z.of_nat (String.length b0) =? Str.npos) with false
    by (symmetry; apply Z.eqb_neq; unfold Str.npos, Str.size_max in *; lia).
  replace (5 <? Z.of_nat (String.length b0)) with true
    by (symmetry; apply Z.ltb_lt; lia).
  cbn [negb andb]. do 2 f_equal.
  unfold Str.substr0.
  replace (Z.to_nat (Z.of_nat (String.length b0) + 1))
    with (String.length (b0 ++ "/"))
    by (rewrite length_app; simpl; lia).
  rewrite <- (sapp_assoc b0 "/"). apply substring_app.
Qed.

Lemma ascend_strips_last_segment_witness :
  change_directory (mk ("ftp://host/pub/" ++ "incoming" ++ "/") "demo:demo") ".."
  = Ok (mk "ftp://host/pub/" "demo:demo").
Proof.
  apply (ascend_strips_last_segment "ftp://host/pub/" "incoming" "demo:demo").
  - reflexivity.
  - vm_compute. reflexivity.
  - reflexivity.
  - vm_compute. reflexivity.
Defined.

(** X3: the floor of [cd ..].  When the last separator before the
    final character lies within the first six characters, as after
    "ftp://host/" for any host, the base is not shortened and not kept:
    the name ".." is appended like any other directory name. *)
Theorem ascend_at_floor_appends (prefix host userpass : string) :
  Str.size prefix <= 5 ->
  Str.mem "/" host = false ->
  Str.size host + 7 < Str.size_max ->
  change_directory (mk (prefix ++ "/" ++ host ++ "/") userpass) ".."
  = Ok (mk (prefix ++ "/" ++ host ++ "/" ++ "../") userpass).
Proof.
  intros Hp Hmem Hsz.
  rewrite change_directory_dotdot. cbn [base_url user_password].
  assert (Hsz' : Str.size (prefix ++ "/" ++ host ++ "/") < Str.size_max).
  { unfold Str.size in *. rewrite !length_app in *.
    simpl String.length in *. lia. }
  cbv zeta. rewrite (find_last_of_descended prefix host Hmem Hsz').
  replace (5 <? Str.size prefix) with false
    by (symmetry; apply Z.ltb_ge; exact Hp).
  rewrite andb_false_r.
  replace (Str.size prefix =? Str.npos) with false
    by (symmetry; apply Z.eqb_neq; unfold Str.npos, Str.size_max; lia).
  assert (Hb : Str.back (prefix ++ "/" ++ host ++ "/") = Ok "/"%char).
  { rewrite <- !sapp_assoc. apply back_snoc. }
  rewrite (ensure_kept _ Hb). cbn [bind].
  rewrite (ensure_added _ "."%char).
  - cbn [bind]. now rewrite !sapp_assoc.
  - rewrite back_app; [reflexivity | discriminate].
  - discriminate.
Qed.

Lemma ascend_at_floor_appends_witness :
  change_directory (mk ("ftp:/" ++ "/" ++ "demo.wftpserver.com" ++ "/") "") ".."
  = Ok (mk ("ftp:/" ++ "/" ++ "demo.wftpserver.com" ++ "/" ++ "../") "").
Proof.
  apply (ascend_at_floor_appends "ftp:/" "demo.wftpserver.com" "").
  - vm_compute. discriminate.
  - reflexivity.
  - vm_compute. reflexivity.
Defined.

(** X4: the name shown in the prompt for the local directory: the file
    name of [dir/name] is [name] when [name] has no separator. *)
Theorem filename_last_segment (dir name : string) :
  Str.mem "/" name = false ->
  Path.filename (dir ++ "/" ++ name) = name.
Proof.
  intros Hmem. unfold Path.filename.
  assert (G : forall p cur, Path.filename_from (p ++ "/" ++ name) cur = name).
  { induction p as [|a p IH]; intros cur.
    - simpl. clear cur.
      assert (F : forall s cur,
                 Str.mem "/" s = false -> Path.filename_from s cur = cur ++ s).
      { induction s as [|b s IHs]; intros cur H; simpl.
        - now rewrite app_empty_r.
        - simpl in H. apply orb_false_elim in H as [Hb Hs].
          rewrite Hb, (IHs _ Hs), sapp_assoc. reflexivity. }
      now rewrite (F name "" Hmem).
    - simpl. destruct (Ascii.eqb a "/"); apply IH. }
  apply G.
Qed.

Lemma filename_last_segment_witness :
  Path.filename ("/home/user" ++ "/" ++ "Downloads") = "Downloads".
Proof.
  apply (filename_last_segment "/home/user" "Downloads"). reflexivity.
Defined.

End RemotePathMore.

(** ** The local listing *)

Section LocalListingMore.

Import LocalFileManager.

Lemma ltb_irrefl (s : string) : String.ltb s s = false.
Proof.
  unfold String.ltb. pose proof (String.compare_antisym s s) as H.
  destruct (String.compare s s); simpl in H; congruence.
Qed.

Lemma ltb_trans (s1 s2 s3 : string) :
  String.ltb s1 s2 = true -> String.ltb s2 s3 = true ->
  String.ltb s1 s3 = true.
Proof.
  unfold String.ltb.
  destruct (String.compare s1 s2) eqn:E12; try discriminate.
  destruct (String.compare s2 s3) eqn:E23; try discriminate.
  now rewrite (string_compare_trans _ _ _ E12 E23).
Qed.

(** X5: [compareFiles] is a strict weak ordering, which is what
    [std::sort] requires of its comparator: irreflexive, asymmetric,
    transitive, and with a transitive "neither before the other". *)
Theorem compareFiles_strict_weak_order :
  (forall a, compareFiles a a = false)
  /\ (forall a b, compareFiles a b = true -> compareFiles b a = false)
  /\ (forall a b c, compareFiles a b = true -> compareFiles b c = true ->
                    compareFiles a c = true)
  /\ (forall a b c, compareFiles a b = false -> compareFiles b a = false ->
                    compareFiles b c = false -> compareFiles c b = false ->
                    compareFiles a c = false /\ compareFiles c a = false).
Proof.
  repeat split.
  - intros a. unfold compareFiles. rewrite Bool.eqb_reflx. apply ltb_irrefl.
  - apply compareFiles_asym.
  - intros a b c. unfold compareFiles.
    destruct (is_directory a), (is_directory b), (is_directory c); simpl;
      try congruence; apply ltb_trans.
  - eapply compareFiles_negtrans; eauto.
  - eapply compareFiles_negtrans; eauto.
Qed.

(** X6: the local listing shows every entry of the directory exactly
    once, one row each, in an order in which no row stands after one
    that [compareFiles] puts behind it. *)
Theorem local_listing_sorted (entries : list FileEntry) :
  Permutation entries (sort compareFiles entries)
  /\ StronglySorted in_order (sort compareFiles entries)
  /\ List.length (list_rows entries) = List.length entries.
Proof.
  split; [apply sort_perm|]. split; [apply sort_sorted|].
  unfold list_rows. rewrite List.length_map.
  symmetry. apply Permutation_length, sort_perm.
Qed.

Lemma sorted_dirs_first (l : list FileEntry) :
  StronglySorted in_order l ->
  exists n m,
    map is_directory l = (repeat true n ++ repeat false m)%list.
Proof.
  induction 1 as [|a l Hs IH Hall].
  - now exists O, O.
  - destruct IH as (n & m & E). destruct (is_directory a) eqn:Ea.
    + exists (S n), m. simpl. now rewrite Ea, E.
    + exists O, (S (List.length l)). simpl. rewrite Ea. f_equal.
      clear E Hs. induction l as [|b l IHl]; [reflexivity|].
      inversion Hall as [|? ? Hb Hl]; subst. simpl.
      destruct (in_order_spec a b Hb) as [Hd _].
      destruct (is_directory b); [specialize (Hd eq_refl); congruence|].
      f_equal. now apply IHl.
Qed.

(** X7: in the local listing all rows of directories come before all
    rows of files. *)
Theorem local_listing_dirs_first (entries : list FileEntry) :
  exists n m,
    map type_str (list_rows entries)
    = (repeat "DIR" n ++ repeat "FILE" m)%list.
Proof.
  destruct (sorted_dirs_first _ (sort_sorted entries)) as (n & m & E).
  exists n, m. unfold list_rows. rewrite List.map_map.
  transitivity (map (fun b : bool => if b then "DIR" else "FILE")
                    (map is_directory (sort compareFiles entries))).
  - rewrite List.map_map. reflexivity.
  - rewrite E, List.map_app, !List.map_repeat. reflexivity.
Qed.

(** X8: the names of one directory are distinct, and then the order of
    the listing does not depend on how [std::sort] works: every sorted
    arrangement of the entries is the one printed. *)
Theorem local_listing_order_unique (entries sorted : list FileEntry) :
  (forall a b, In a entries -> In b entries -> name a = name b -> a = b) ->
  Permutation entries sorted ->
  StronglySorted in_order sorted ->
  map (fun e => print_row (name e) (is_directory e) (size e)) sorted
  = list_rows entries.
Proof.
  intros Hn Hp Hs. unfold list_rows.
  now rewrite (sort_unique entries sorted Hn Hp Hs).
Qed.

Lemma local_listing_order_unique_witness :
  map (fun e => print_row (name e) (is_directory e) (size e))
      [dirA; dirB; fileA; fileB]
  = list_rows [dirB; fileA; dirA; fileB].
Proof.
  apply (local_listing_order_unique [dirB; fileA; dirA; fileB]
                                    [dirA; dirB; fileA; fileB]).
  - intros a b Ha Hb.
    simpl in Ha, Hb.
    repeat (destruct Ha as [<-|Ha]; [| ]);
      try contradiction;
      repeat (destruct Hb as [<-|Hb]; [| ]);
      try contradiction; simpl; intros E;
      first [reflexivity | discriminate E].
  - apply Permutation_sym.
    apply (perm_trans (l' := dirA :: dirB :: fileA :: fileB :: nil)); [reflexivity|].
    change [dirB; fileA; dirA; fileB]
      with (([dirB; fileA] ++ dirA :: [fileB])%list).
    apply Permutation_cons_app. simpl.
    repeat constructor.
  - repeat constructor.
Defined.

End LocalListingMore.

(** ** The listing parser on any line *)

Section ParserMore.

Import FtpClient.

Lemma app_nonempty_r (s1 s2 : string) : s2 <> "" -> s1 ++ s2 <> "".
Proof. destruct s1; [easy | discriminate]. Qed.

Lemma all_back (p : ascii -> bool) (s : string) (c : ascii) :
  Str.all p s = true -> Str.back s = Ok c -> p c = true.
Proof.
  intros Ha Hb. destruct (back_inv _ _ Hb) as [s0 ->]. clear Hb.
  induction s0 as [|a s0 IH]; simpl in Ha.
  - now apply andb_true_iff in Ha as [Ha _].
  - apply andb_true_iff in Ha as [_ Ha]. now apply IH.
Qed.

(** The last character of a line the pattern matches is one [.]
    accepts. *)
Lemma regex_match_last (line : string) (m : Regex.smatch) (c : ascii) :
  Regex.regex_match line re = Some m ->
  Str.back line = Ok c -> Regex.any c = true.
Proof.
  intros Hm Hb.
  destruct (regex_match_inv _ _ Hm)
    as (perms & w1 & links & w2 & user & w3 & group & w4 & size & w5 & f1
        & w6 & f2 & w7 & name & -> & _ & _ & _ & _ & _ & _ & _ & _ & _ & _
        & _ & Hn & Hall).
  repeat (rewrite back_app in Hb;
          [|repeat apply app_nonempty_r; exact Hn]).
  exact (all_back _ _ _ Hall Hb).
Qed.

Lemma regex_no_cr (line : string) :
  Regex.regex_match (line ++ String "013" "") re = None.
Proof.
  destruct (Regex.regex_match (line ++ String "013" "") re) as [m|] eqn:E;
    [|reflexivity].
  pose proof (regex_match_last _ m "013"%char E (back_snoc _ _)) as H.
  discriminate H.
Qed.

(** X9: on every line the parser returns an entry or throws
    [std::out_of_range]; it has no undefined behaviour and throws
    nothing else. *)
Theorem parse_ftp_entry_outcomes (line : string) :
  (exists entry, parse_ftp_entry line = Ok entry)
  \/ parse_ftp_entry line = Throw out_of_range.
Proof.
  pose proof (parse_ftp_entry_cases line) as H.
  destruct (Regex.regex_match line re) as [m|]; [|eauto].
  destruct H as (c & _ & ->).
  destruct (Conv.ULLONG_MAX <? _); eauto.
Qed.

(** X10: a line of permissions, link count, owner, group, size and two
    further fields, separated by runs of white space, gives the entry
    whose name is the rest of the line as it stands, whose size is the
    number written, and which is a directory when the permissions start
    with [d]. *)
Theorem parse_ftp_entry_well_formed
        (perms w1 links w2 user w3 group w4 size w5 f1 w6 f2 w7 name : string)
        (c : ascii) :
  Regex.run_of (Regex.one_of "drwx-") perms -> Regex.run_of Regex.space w1 ->
  Regex.run_of Regex.digit links -> Regex.run_of Regex.space w2 ->
  Regex.run_of Regex.non_space user -> Regex.run_of Regex.space w3 ->
  Regex.run_of Regex.non_space group -> Regex.run_of Regex.space w4 ->
  Regex.run_of Regex.digit size -> Regex.run_of Regex.space w5 ->
  Regex.run_of Regex.non_space f1 -> Regex.run_of Regex.space w6 ->
  Regex.run_of Regex.non_space f2 -> Regex.run_of Regex.space w7 ->
  Regex.run_of Regex.any name -> Regex.starts_outside Regex.space name = true ->
  Str.front perms = Ok c ->
  Conv.decimal size 0 <= Conv.ULLONG_MAX ->
  parse_ftp_entry
    (perms ++ w1 ++ links ++ w2 ++ user ++ w3 ++ group ++ w4
       ++ size ++ w5 ++ f1 ++ w6 ++ f2 ++ w7 ++ name)
  = Ok (mk_entry name (Ascii.eqb c "d") (Conv.decimal size 0)).
Proof. apply parse_ftp_entry_fields. Qed.

Lemma parse_ftp_entry_well_formed_witness :
  parse_ftp_entry
    ("-rw-r--r--" ++ "   " ++ "1" ++ " " ++ "ftp" ++ " " ++ "ftp" ++ "  "
       ++ "1536" ++ " " ++ "Mar" ++ " " ++ "07" ++ " " ++ "My File.txt")
  = Ok (mk_entry "My File.txt" (Ascii.eqb "-" "d") (Conv.decimal "1536" 0)).
Proof.
  apply (parse_ftp_entry_well_formed "-rw-r--r--" "   " "1" " " "ftp" " "
           "ftp" "  " "1536" " " "Mar" " " "07" " " "My File.txt" "-");
    try (split; [discriminate | reflexivity]); try reflexivity.
  vm_compute. discriminate.
Defined.

(** X11: a line that does not start with one of the characters
    [d r w x -] is not taken apart: the whole line is the name of a
    file of size 0 (so is the "total" line of a listing). *)
Theorem parse_ftp_entry_fallback (line : string) :
  Regex.starts_outside (Regex.one_of "drwx-") line = true ->
  parse_ftp_entry line = Ok (mk_entry line false 0).
Proof.
  intros H. unfold parse_ftp_entry, Regex.regex_match, re.
  cbn [Regex.seq Regex.exec]. now rewrite plus_k_stop.
Qed.

Lemma parse_ftp_entry_fallback_witness :
  parse_ftp_entry "total 12" = Ok (mk_entry "total 12" false 0).
Proof. apply (parse_ftp_entry_fallback "total 12"). reflexivity. Defined.

(** X12: a line that still carries the carriage return of a CR LF line
    end is never matched, because [.] does not accept the carriage
    return: the entry is the fallback one, with the carriage return in
    its name. *)
Theorem parse_ftp_entry_carriage_return (line : string) :
  parse_ftp_entry (line ++ String "013" "")
  = Ok (mk_entry (line ++ String "013" "") false 0).
Proof. unfold parse_ftp_entry. now rewrite regex_no_cr. Qed.

Lemma decimal_nonneg (s : string) (acc : Z) :
  Str.all Conv.isdigit s = true -> 0 <= acc -> 0 <= Conv.decimal s acc.
Proof.
  revert acc. induction s as [|c s IH]; intros acc Ha Hacc;
    cbn [Conv.decimal]; [exact Hacc|].
  cbn [Str.all] in Ha. apply andb_true_iff in Ha as [Hc Hs].
  apply IH; [exact Hs|].
  unfold Conv.isdigit in Hc. apply andb_true_iff in Hc as [H1 _].
  apply N.leb_le in H1. unfold Conv.digit_value. lia.
Qed.

(** X13: whatever entry the parser returns, its name is the line or an
    end piece of the line, its size fits 64 bits, and it is a directory
    only if the line starts with [d]. *)
Theorem parse_ftp_entry_entry (line : string) (entry : FtpEntry) :
  parse_ftp_entry line = Ok entry ->
  (exists front, line = front ++ name entry)
  /\ 0 <= size entry <= Conv.ULLONG_MAX
  /\ (is_directory entry = true -> Str.front line = Ok "d"%char).
Proof.
  unfold parse_ftp_entry.
  destruct (Regex.regex_match line re) as [m|] eqn:E.
  - destruct (regex_match_inv _ _ E)
      as (perms & w1 & links & w2 & user & w3 & group & w4 & sz & w5 & f1
          & w6 & f2 & w7 & nm & -> & -> & Hp & _ & Hs1 & Hs2 & _).
    cbn [Regex.sub Nat.eqb].
    rewrite (stoull_digits sz Hs1 Hs2).
    destruct (Conv.ULLONG_MAX <? Conv.decimal sz 0) eqn:Ho; [discriminate|].
    destruct perms as [|c perms]; [congruence|]. cbn [bind Str.front].
    intros [= <-]. cbn [name size is_directory].
    apply Z.ltb_ge in Ho. repeat split.
    + exists (String c perms ++ w1 ++ links ++ w2 ++ user ++ w3 ++ group
                ++ w4 ++ sz ++ w5 ++ f1 ++ w6 ++ f2 ++ w7).
      now rewrite !sapp_assoc.
    + apply decimal_nonneg; [exact Hs2 | lia].
    + exact Ho.
    + intros Hd. apply Ascii.eqb_eq in Hd. now subst c.
  - intros [= <-]. cbn [name size is_directory]. repeat split.
    + now exists "".
    + lia.
    + vm_compute. discriminate.
    + discriminate.
Qed.

Lemma parse_ftp_entry_entry_witness :
  (exists front,
      "drwxr-xr-x 2 user group 4096 Jan 1 00:00 subdir"
      = front ++ name (mk_entry "00:00 subdir" true 4096))
  /\ 0 <= size (mk_entry "00:00 subdir" true 4096) <= Conv.ULLONG_MAX
  /\ (is_directory (mk_entry "00:00 subdir" true 4096) = true ->
      Str.front "drwxr-xr-x 2 user group 4096 Jan 1 00:00 subdir" = Ok "d"%char).
Proof.
  apply (parse_ftp_entry_entry
           "drwxr-xr-x 2 user group 4096 Jan 1 00:00 subdir"
           (mk_entry "00:00 subdir" true 4096)).
  vm_compute. reflexivity.
Defined.

End ParserMore.

(** ** The remote listing *)

Section RemoteListingMore.

Import FtpClient.

Lemma lines_from_app (l s cur : string) :
  Str.mem "010" l = false ->
  lines_from (l ++ s) cur = lines_from s (cur ++ l).
Proof.
  revert cur. induction l as [|a l IH]; intros cur H; simpl.
  - now rewrite app_empty_r.
  - simpl in H. apply orb_false_elim in H as [Ha Hl].
    rewrite Ha, (IH _ Hl), sapp_assoc. reflexivity.
Qed.

Lemma lines_crlf (l : string) (ls : list string) :
  Str.mem "010" l = false ->
  lines (crlf_listing (l :: ls))
  = (l ++ String "013" "") :: lines (crlf_listing ls).
Proof.
  intros H. unfold lines. cbn [crlf_listing].
  rewrite (lines_from_app l _ "" H). reflexivity.
Qed.

(** X14: a listing whose lines end in CR LF, as FTP servers send them,
    is printed line by line as files of size 0 ("0 B"), each named by
    its whole line with the carriage return: no line is taken apart. *)
Theorem list_rows_crlf (ls : list string) :
  Forall (fun l => Str.mem "010" l = false) ls ->
  list_rows (crlf_listing ls)
  = (map (fun l => mk_row "FILE" (l ++ String "013" "") "0 B") ls, Ok tt).
Proof.
  unfold list_rows. induction 1 as [|l ls Hl Hls IH]; [reflexivity|].
  rewrite (lines_crlf l ls Hl). cbn [print_lines map].
  rewrite IH.
  unfold parse_ftp_entry. rewrite regex_no_cr.
  destruct l; reflexivity.
Qed.

Lemma list_rows_crlf_witness :
  list_rows (crlf_listing ["drwxr-xr-x 2 user group 4096 Jan 1 00:00 subdir";
                           "-rw-r--r-- 1 user group 10 Jan 1 00:00 a.txt"])
  = (map (fun l => mk_row "FILE" (l ++ String "013" "") "0 B")
         ["drwxr-xr-x 2 user group 4096 Jan 1 00:00 subdir";
          "-rw-r--r-- 1 user group 10 Jan 1 00:00 a.txt"], Ok tt).
Proof.
  apply (list_rows_crlf ["drwxr-xr-x 2 user group 4096 Jan 1 00:00 subdir";
                         "-rw-r--r-- 1 user group 10 Jan 1 00:00 a.txt"]).
  repeat constructor.
Defined.

Lemma print_lines_count (ls : list string) :
  let nonempty := filter (fun l => negb (String.eqb l "")) ls in
  (snd (print_lines ls) = Ok tt
   /\ List.length (fst (print_lines ls)) = List.length nonempty)
  \/ (snd (print_lines ls) = Throw out_of_range
      /\ (List.length (fst (print_lines ls)) < List.length nonempty)%nat).
Proof.
  induction ls as [|l ls IH]; [now left|]. cbn zeta in *.
  cbn [print_lines filter].
  destruct l as [|a l]; [exact IH|].
  cbn [String.eqb negb].
  pose proof (parse_ftp_entry_cases (String a l)) as Hc.
  destruct (Regex.regex_match (String a l) re) as [m|].
  - destruct Hc as (c & _ & ->).
    destruct (Conv.ULLONG_MAX <? _).
    + right. split; [reflexivity | simpl; lia].
    + destruct (print_lines ls) as [rows r]. cbn [fst snd List.length] in *.
      destruct IH as [[-> ->]|[-> IH]]; [left | right]; split;
        solve [reflexivity | lia].
  - rewrite Hc.
    destruct (print_lines ls) as [rows r]. cbn [fst snd List.length] in *.
    destruct IH as [[-> ->]|[-> IH]]; [left | right]; split;
      solve [reflexivity | lia].
Qed.

(** X15: the remote listing prints one row for every line that is not
    empty; the only other way it ends is [std::out_of_range] from a
    size, and then the rows stop before that line. *)
Theorem list_rows_count (list_data : string) :
  (snd (list_rows list_data) = Ok tt
   /\ List.length (fst (list_rows list_data))
      = List.length (row_lines list_data))
  \/ (snd (list_rows list_data) = Throw out_of_range
      /\ (List.length (fst (list_rows list_data))
          < List.length (row_lines list_data))%nat).
Proof. apply print_lines_count. Qed.

End RemoteListingMore.

(** ** The size formatter on any size *)

Section FormatMore.

Import Fmt.

Lemma rne_inject (q : Q) (z : Z) : (q == inject_Z z)%Q -> rne q = z.
Proof.
  destruct q as [n d]. unfold Qeq, rne. simpl. intros H.
  assert (E : n = z * Zpos d) by lia.
  rewrite E, Z.div_mul, Z.mod_mul by lia.
  simpl. reflexivity.
Qed.

Lemma Qdiv_1024_ge (d : Q) : (1024 <= d)%Q -> (1 <= d / 1024)%Q.
Proof.
  destruct d as [n den]. unfold Qle, Qdiv, Qmult, Qinv. simpl. lia.
Qed.

Lemma scale_loop_ge_1 (fuel : nat) (d : Q) (i : Z) :
  (1 <= d)%Q -> (1 <= fst (scale_loop fuel d i))%Q.
Proof.
  revert d i. induction fuel as [|fuel IH]; intros d i Hd; simpl; [exact Hd|].
  destruct (Qle_bool 1024 d) eqn:E; simpl; [|exact Hd].
  destruct (i <? 4); simpl; [|exact Hd].
  apply IH, Qdiv_1024_ge, Qle_bool_iff, E.
Qed.

Lemma scale_loop_inv (fuel : nat) (d : Q) (i : Z) :
  0 <= i <= 4 -> (Z.to_nat (4 - i) <= fuel)%nat ->
  let r := scale_loop fuel d i in
  (fst r * inject_Z (1024 ^ (snd r - i)) == d)%Q
  /\ i <= snd r <= 4
  /\ (snd r < 4 -> (fst r < 1024)%Q)
  /\ (i < snd r -> (1 <= fst r)%Q).
Proof.
  assert (Stop : forall (d : Q) (i : Z),
             0 <= i <= 4 ->
             (i < 4 -> (d < 1024)%Q) ->
             (d * inject_Z (1024 ^ (i - i)) == d)%Q
             /\ i <= i <= 4
             /\ (i < 4 -> (d < 1024)%Q)
             /\ (i < i -> (1 <= d)%Q)).
  { intros d' i' Hi' Hlt. rewrite Z.sub_diag.
    split; [apply Qmult_1_r|]. split; [lia|]. split; [exact Hlt | lia]. }
  revert d i. induction fuel as [|fuel IH]; intros d i Hi Hf; cbn zeta.
  - cbn [scale_loop fst snd]. apply Stop; [exact Hi | lia].
  - cbn [scale_loop].
    destruct (Qle_bool 1024 d) eqn:E; cbn [andb].
    + destruct (i <? 4) eqn:E4.
      * apply Z.ltb_lt in E4. apply Qle_bool_iff in E.
        destruct (IH (d / 1024)%Q (i + 1)) as (H1 & H2 & H3 & _); try lia.
        split; [|split; [lia|split; [exact H3|]]].
        -- replace (snd (scale_loop fuel (d / 1024)%Q (i + 1)) - i)
             with (Z.succ (snd (scale_loop fuel (d / 1024)%Q (i + 1)) - (i + 1)))
             by lia.
           rewrite Z.pow_succ_r by lia. rewrite inject_Z_mult.
           rewrite (Qmult_comm (inject_Z 1024)), Qmult_assoc, H1.
           field.
        -- intros _. apply scale_loop_ge_1. now apply Qdiv_1024_ge.
      * apply Z.ltb_ge in E4. cbn [fst snd]. apply Stop; [exact Hi | lia].
    + cbn [fst snd]. apply Stop; [exact Hi|].
      intros _. apply Qnot_le_lt. intros H. apply Qle_bool_iff in H. congruence.
Qed.

(** X16: the number and the unit the formatter prints.  For any value
    [d0] of [d_size], the loop ends with [d] and unit index [i] such
    that [d * 1024^i = d0], the index is one of the five units, the
    number is below 1024 unless the unit is TB, and it is at least 1
    whenever a unit above B is used. *)
Theorem scale_loop_result (d0 : Q) :
  let r := scale_loop 4 d0 0 in
  (fst r * inject_Z (1024 ^ snd r) == d0)%Q
  /\ 0 <= snd r <= 4
  /\ (snd r < 4 -> (fst r < 1024)%Q)
  /\ (0 < snd r -> (1 <= fst r)%Q).
Proof.
  cbn zeta.
  rewrite <- (Z.sub_0_r (snd (scale_loop 4 d0 0))) at 1.
  apply (scale_loop_inv 4 d0 0); simpl; lia.
Qed.

Lemma fixed_0_integer (z : Z) : fixed 0 (inject_Z z) = dec z.
Proof.
  unfold fixed. rewrite (rne_inject _ z); [reflexivity|].
  simpl. ring.
Qed.

Lemma fixed_1_integer (d : Q) (z : Z) :
  0 <= z -> (d == inject_Z z)%Q -> fixed 1 d = dec z ++ ".0".
Proof.
  intros Hz H. unfold fixed.
  rewrite (rne_inject _ (z * 10)).
  - change (10 ^ Z.of_nat 1) with 10.
    rewrite Z.div_mul, Z.mod_mul by lia. reflexivity.
  - rewrite H, inject_Z_mult. reflexivity.
Qed.

(** X17: a size below 1024 is printed as the integer it is, followed
    by " B". *)
Theorem format_size_human_bytes (size : Z) :
  0 < size < 1024 ->
  format_size_human size = dec size ++ " B".
Proof.
  intros H. unfold format_size_human.
  replace (size =? 0) with false by (symmetry; apply Z.eqb_neq; lia).
  unfold to_double.
  replace (size <? 2 ^ 53) with true by (symmetry; apply Z.ltb_lt; lia).
  cbn [scale_loop].
  replace (Qle_bool 1024 (inject_Z size)) with false.
  - cbn [andb]. change (0 =? 0) with true. cbv iota.
    now rewrite fixed_0_integer.
  - symmetry. unfold Qle_bool. simpl. apply Z.leb_gt. lia.
Qed.

Lemma format_size_human_bytes_witness :
  format_size_human 1023 = dec 1023 ++ " B".
Proof. apply (format_size_human_bytes 1023). lia. Defined.

(** X18: a whole number [k] below 1024 of KB, MB, GB or TB is printed
    as [k] with one decimal place 0 and that unit. *)
Theorem format_size_human_multiples (k i : Z) :
  1 <= k < 1024 -> 1 <= i <= 4 ->
  format_size_human (k * 1024 ^ i)
  = dec k ++ ".0 " ++ nth (Z.to_nat i) units "".
Proof.
  intros Hk Hi. unfold format_size_human.
  assert (Hpow : 1024 <= 1024 ^ i <= 1024 ^ 4).
  { split.
    - change 1024 with (1024 ^ 1) at 1. apply Z.pow_le_mono_r; lia.
    - apply Z.pow_le_mono_r; lia. }
  change (1024 ^ 4) with 1099511627776 in Hpow.
  replace (k * 1024 ^ i =? 0) with false by (symmetry; apply Z.eqb_neq; nia).
  unfold to_double.
  replace (k * 1024 ^ i <? 2 ^ 53) with true
    by (symmetry; apply Z.ltb_lt; change (2 ^ 53) with 9007199254740992; nia).
  pose proof (scale_loop_inv 4 (inject_Z (k * 1024 ^ i)) 0) as H.
  cbn zeta in H. destruct H as (H1 & H2 & H3 & H4); [lia | simpl; lia |].
  destruct (scale_loop 4 (inject_Z (k * 1024 ^ i)) 0) as [[n den] j].
  cbn [fst snd] in *. rewrite Z.sub_0_r in H1.
  unfold Qeq, Qlt, Qle in *. cbn [Qnum Qden Qmult inject_Z] in *.
  assert (Hj : j = i).
  { assert (Ci : i = 1 \/ i = 2 \/ i = 3 \/ i = 4) by lia.
    assert (Cj : j = 0 \/ j = 1 \/ j = 2 \/ j = 3 \/ j = 4) by lia.
    destruct Ci as [ -> | [ -> | [ -> | -> ] ] ];
      destruct Cj as [ -> | [ -> | [ -> | [ -> | -> ] ] ] ];
      try reflexivity; exfalso;
        try (specialize (H3 ltac:(lia))); try (specialize (H4 ltac:(lia)));
        rewrite ?Pos2Z.inj_mul in *;
        change (1024 ^ 0) with 1 in *; change (1024 ^ 1) with 1024 in *;
        change (1024 ^ 2) with 1048576 in *;
        change (1024 ^ 3) with 1073741824 in *;
        change (1024 ^ 4) with 1099511627776 in *;
        change (Qnum 1024) with 1024 in *; change (Qnum 1) with 1 in *;
        change (Z.pos (Qden 1024)) with 1 in *;
        change (Z.pos (Qden 1)) with 1 in *;
        pose proof (Pos2Z.is_pos den); nia. }
  subst j.
  replace (i =? 0) with false by (symmetry; apply Z.eqb_neq; lia).
  rewrite (fixed_1_integer (n # den) k); [|lia|].
  - now rewrite sapp_assoc.
  - unfold Qeq. cbn [Qnum Qden inject_Z]. nia.
Qed.

Lemma format_size_human_multiples_witness :
  format_size_human (512 * 1024 ^ 3)
  = dec 512 ++ ".0 " ++ nth (Z.to_nat 3) units "".
Proof. apply (format_size_human_multiples 512 3); lia. Defined.

End FormatMore.

(** ** The command line *)

Section CommandLineMore.

Import Shell.

Lemma all_app (p : ascii -> bool) (s1 s2 : string) :
  Str.all p (s1 ++ s2) = Str.all p s1 && Str.all p s2.
Proof.
  induction s1 as [|a s1 IH]; simpl; [reflexivity|].
  now rewrite IH, andb_assoc.
Qed.

Lemma split_from_tokens (s item : string) :
  Str.all Regex.non_space item = true ->
  Forall (Regex.run_of Regex.non_space) (split_from s item).
Proof.
  revert item. induction s as [|c s IH]; intros item Hi; simpl.
  - destruct item; [constructor|].
    constructor; [split; [discriminate | exact Hi] | constructor].
  - destruct (Conv.isspace c) eqn:Ec.
    + destruct item; [now apply IH|].
      constructor; [split; [discriminate | exact Hi] | now apply IH].
    + apply IH. rewrite all_app, Hi. simpl.
      unfold Regex.non_space. now rewrite Ec.
Qed.

(** X19: every token [split_command] returns is non-empty and free of
    white space, whatever the line. *)
Theorem split_command_tokens (command_line : string) :
  Forall (Regex.run_of Regex.non_space) (split_command command_line).
Proof. apply split_from_tokens. reflexivity. Qed.

Lemma split_from_token (t s item : string) :
  Str.all Regex.non_space t = true ->
  split_from (t ++ s) item = split_from s (item ++ t).
Proof.
  revert item. induction t as [|c t IH]; intros item Ht; simpl.
  - now rewrite app_empty_r.
  - simpl in Ht. apply andb_true_iff in Ht as [Hc Ht].
    unfold Regex.non_space in Hc. apply negb_true_iff in Hc. rewrite Hc.
    rewrite (IH _ Ht), sapp_assoc. reflexivity.
Qed.

Lemma split_from_concat (tokens : list string) :
  Forall (Regex.run_of Regex.non_space) tokens ->
  split_from (String.concat " " tokens) "" = tokens.
Proof.
  induction 1 as [|t ts [Hne Ht] Hts IH]; [reflexivity|].
  destruct ts as [|t' ts].
  - simpl. rewrite <- (app_empty_r t) at 1.
    rewrite (split_from_token t "" "" Ht). simpl.
    destruct t; [congruence | reflexivity].
  - change (String.concat " " (t :: t' :: ts))
      with (t ++ String " " (String.concat " " (t' :: ts))).
    rewrite (split_from_token t _ "" Ht).
    cbn [split_from append]. change (Conv.isspace " ") with true. cbv iota.
    rewrite IH. destruct t; [congruence | reflexivity].
Qed.

(** X20: tokens without white space, written with one space between
    them, are what [split_command] gives back. *)
Theorem split_command_concat (tokens : list string) :
  Forall (Regex.run_of Regex.non_space) tokens ->
  split_command (String.concat " " tokens) = tokens.
Proof. apply split_from_concat. Qed.

Lemma split_command_concat_witness :
  split_command (String.concat " " ["connect"; "ftp://demo.wftpserver.com"; "demo:demo"])
  = ["connect"; "ftp://demo.wftpserver.com"; "demo:demo"].
Proof.
  apply (split_command_concat
           ["connect"; "ftp://demo.wftpserver.com"; "demo:demo"]).
  repeat constructor; discriminate.
Defined.

Lemma mem_app (c : ascii) (s1 s2 : string) :
  Str.mem c (s1 ++ s2) = Str.mem c s1 || Str.mem c s2.
Proof.
  induction s1 as [|a s1 IH]; simpl; [reflexivity|].
  now rewrite IH, orb_assoc.
Qed.

Lemma token_no_newline (t : string) :
  Str.all Regex.non_space t = true -> Str.mem "010" t = false.
Proof.
  induction t as [|a t IH]; simpl; [reflexivity|]. intros H.
  apply andb_true_iff in H as [Ha Ht]. rewrite (IH Ht), orb_false_r.
  apply Ascii.eqb_neq. intros ->. discriminate Ha.
Qed.

Lemma concat_no_newline (tokens : list string) :
  Forall (Regex.run_of Regex.non_space) tokens ->
  Str.mem "010" (String.concat " " tokens) = false.
Proof.
  induction 1 as [|t ts [_ Ht] Hts IH]; [reflexivity|].
  destruct ts as [|t' ts].
  - simpl. now apply token_no_newline.
  - change (String.concat " " (t :: t' :: ts))
      with (t ++ String " " (String.concat " " (t' :: ts))).
    rewrite mem_app, (token_no_newline t Ht).
    cbn [Str.mem orb]. rewrite IH. reflexivity.
Qed.

End CommandLineMore.

(** ** The command router *)

Section RouterMore.

Import Shell.

Context {W : Type} (C : collaborators W).

(** X21: the command word is matched without regard to case: putting
    it in lower case first changes nothing of what the command does to
    the session. *)
Theorem dispatch_case_insensitive (s : @state W) (arg0 : string)
        (rest : list string) :
  dispatch C s (lower_string arg0 :: rest) = dispatch C s (arg0 :: rest).
Proof.
  unfold dispatch. cbv zeta.
  rewrite !transform_tolower_spec, lower_string_isascii,
    lower_string_idempotent.
  reflexivity.
Qed.

Lemma arity_isascii (command : string) (enough : nat -> bool) :
  arity command = Some enough -> Str.all Conv.isascii command = true.
Proof.
  unfold arity.
  repeat match goal with
    | |- context [String.eqb command ?k] =>
        destruct (String.eqb_spec command k) as [E|_];
        [rewrite E; reflexivity|]
    end.
  discriminate.
Qed.

Lemma nullary_isascii (command : string) :
  nullary command = true -> Str.all Conv.isascii command = true.
Proof.
  unfold nullary.
  repeat match goal with
    | |- context [String.eqb command ?k] =>
        destruct (String.eqb_spec command k) as [E|_];
        [rewrite E; reflexivity|]
    end.
  discriminate.
Qed.

Ltac usage_branch He :=
  cbn [String.eqb Ascii.eqb Bool.eqb orb];
  match goal with
  | |- (if ?b then _ else _) = _ =>
      replace b with false by (symmetry; exact He)
  end;
  reflexivity.

(** X22: a command given the wrong number of arguments only prints its
    usage line: the session, the remote base included, is as before. *)
Theorem dispatch_usage (s : @state W) (arg0 : string) (rest : list string)
        (enough : nat -> bool) :
  arity (lower_string arg0) = Some enough ->
  enough (List.length (arg0 :: rest)) = false ->
  dispatch C s (arg0 :: rest)
  = Continue (emit (Usage (lower_string arg0)) s).
Proof.
  intros Ha0. unfold dispatch.
  rewrite (transform_tolower_keyword arg0 _ eq_refl (arity_isascii _ _ Ha0)).
  revert Ha0. unfold arity. cbv zeta.
  generalize (lower_string arg0) as cmd. intros cmd Ha He.
  destruct (String.eqb_spec cmd "connect") as [E|N1].
  { subst cmd. injection Ha as <-. usage_branch He. }
  destruct (String.eqb_spec cmd "cd") as [E|N2].
  { subst cmd. injection Ha as <-. usage_branch He. }
  destruct (String.eqb_spec cmd "mkdir") as [E|N3].
  { subst cmd. injection Ha as <-. usage_branch He. }
  destruct (String.eqb_spec cmd "lcd") as [E|N4].
  { subst cmd. injection Ha as <-. usage_branch He. }
  destruct (String.eqb_spec cmd "lmkdir") as [E|N5].
  { subst cmd. injection Ha as <-. usage_branch He. }
  destruct (String.eqb_spec cmd "lrm") as [E|N6].
  { subst cmd. injection Ha as <-. usage_branch He. }
  cbn [orb] in Ha.
  destruct (String.eqb_spec cmd "rm") as [E|N7].
  { subst cmd. injection Ha as <-. usage_branch He. }
  destruct (String.eqb_spec cmd "get") as [E|N8].
  { subst cmd. injection Ha as <-. usage_branch He. }
  destruct (String.eqb_spec cmd "put") as [E|N9].
  { subst cmd. injection Ha as <-. usage_branch He. }
  destruct (String.eqb_spec cmd "lmv") as [E|N10].
  { subst cmd. injection Ha as <-. usage_branch He. }
  discriminate Ha.
Qed.

(** X23: [exit], [help] and the four listing commands look at no
    argument: whatever follows the command word is ignored. *)
Theorem dispatch_nullary (s : @state W) (arg0 : string) (rest : list string) :
  nullary (lower_string arg0) = true ->
  dispatch C s (arg0 :: rest) = dispatch C s [arg0].
Proof.
  intros H0. unfold dispatch.
  rewrite (transform_tolower_keyword arg0 _ eq_refl (nullary_isascii _ H0)).
  revert H0. unfold nullary. cbv zeta.
  generalize (lower_string arg0) as cmd. intros cmd H.
  destruct (String.eqb_spec cmd "exit") as [E|N1]; [reflexivity|].
  destruct (String.eqb_spec cmd "help") as [E|N2]; [reflexivity|].
  destruct (String.eqb_spec cmd "connect") as [E|N3].
  { subst cmd. discriminate H. }
  destruct (String.eqb_spec cmd "ls") as [E|N4]; [reflexivity|].
  destruct (String.eqb_spec cmd "dir") as [E|N5]; [reflexivity|].
  cbn [orb] in *.
  destruct (String.eqb_spec cmd "lls") as [E|N6].
  { subst cmd. reflexivity. }
  destruct (String.eqb_spec cmd "ldir") as [E|N7].
  { subst cmd. reflexivity. }
  discriminate H.
Qed.

Ltac break_if' :=
  match goal with
  | |- context [if ?b then _ else _] => destruct b eqn:?
  end.

Ltac break_call' :=
  match goal with
  | |- context [curl_list C ?w ?u] => destruct (curl_list C w u) as [? [?|]]
  | |- context [curl_do C ?w ?o] => destruct (curl_do C w o)
  | |- context [fs_do C ?w ?o] => destruct (fs_do C w o)
  | |- context [directory_entries C ?w] => destruct (directory_entries C w)
  | |- context [FtpClient.list_rows ?d] =>
      destruct (FtpClient.list_rows d) as [? [[]| |]]
  | |- context [FtpClient.ensure_trailing_slash ?u] =>
      destruct (FtpClient.ensure_trailing_slash u)
  end.

(** X24: only [connect] and [cd] change the FTP client: after any
    other command the remote base and the credentials are the ones
    from before. *)
Theorem dispatch_keeps_client (s s' : @state W) (arg0 : string)
        (rest : list string) :
  lower_string arg0 <> "connect" ->
  lower_string arg0 <> "cd" ->
  dispatch C s (arg0 :: rest) = Continue s' ->
  ftp_client s' = ftp_client s.
Proof.
  unfold dispatch. rewrite transform_tolower_spec.
  destruct (Str.all Conv.isascii arg0); [|discriminate]. cbv zeta.
  generalize (lower_string arg0) as cmd. intros cmd Hc1 Hc2.
  apply String.eqb_neq in Hc1, Hc2. rewrite Hc1, Hc2.
  repeat break_if'; try discriminate;
    unfold ftp_list_directory, local_list_directory, remote_call,
      local_call, full_url;
    repeat (break_call'; simpl); try discriminate;
    intros [= <-]; reflexivity.
Qed.

End RouterMore.


(** ** Sessions *)

Section SessionMore.

Import Shell.

Context {W : Type} (C : collaborators W).

Lemma change_directory_keeps_slash (self : FtpClient.t) (dir_name : string) :
  Str.back (FtpClient.base_url self) = Ok "/"%char ->
  exists f, FtpClient.change_directory self dir_name = Ok f
            /\ Str.back (FtpClient.base_url f) = Ok "/"%char.
Proof.
  intros Hinv. unfold FtpClient.change_directory.
  destruct (descend_total (FtpClient.base_url self) dir_name Hinv)
    as [b [Hb Hbb]].
  rewrite (ensure_kept _ Hinv) in *. cbn [bind] in *. rewrite Hb. cbn [bind].
  destruct (String.eqb dir_name ".."); [|eauto].
  set (r := Str.find_last_of _ _ _).
  destruct (find_last_of_range (FtpClient.base_url self) "/"
              (Str.size_sub (Str.size (FtpClient.base_url self)) 2))
    as [E|[_ E]]; fold r in E.
  - rewrite E. simpl. eauto.
  - destruct (negb (r =? Str.npos) && (5 <? r)); [eauto|].
    destruct (r =? Str.npos); eauto.
Qed.

Ltac split_ifs :=
  repeat match goal with
    | |- context [if ?b then _ else _] => destruct b eqn:?
    end.

Ltac split_calls :=
  repeat (match goal with
          | |- context [curl_list C ?w ?u] =>
              destruct (curl_list C w u) as [? [?|]]
          | |- context [curl_do C ?w ?o] => destruct (curl_do C w o)
          | |- context [fs_do C ?w ?o] => destruct (fs_do C w o)
          | |- context [directory_entries C ?w] =>
              destruct (directory_entries C w)
          | |- context [FtpClient.list_rows ?d] =>
              destruct (FtpClient.list_rows d) as [? [[]| |]]
          | |- context [FtpClient.ensure_trailing_slash ?u] =>
              destruct (FtpClient.ensure_trailing_slash u)
          | |- context [FtpClient.change_directory ?f ?d] =>
              destruct (FtpClient.change_directory f d)
          end; simpl).

(** The one way out of the loop: the command [exit], with code 0 and
    the session as it was. *)
Lemma dispatch_return (s s' : @state W) (args : list string) (code : Z) :
  dispatch C s args = Return code s' ->
  code = 0 /\ s' = s
  /\ exists arg0 rest, args = arg0 :: rest /\ lower_string arg0 = "exit".
Proof.
  unfold dispatch. destruct args as [|arg0 rest]; [discriminate|].
  rewrite transform_tolower_spec.
  destruct (Str.all Conv.isascii arg0); [|discriminate]. cbv zeta.
  destruct (String.eqb (lower_string arg0) "exit") eqn:Ex.
  - intros [= <- <-]. apply String.eqb_eq in Ex. eauto 6.
  - split_ifs;
      unfold ftp_list_directory, local_list_directory, remote_call,
        local_call, full_url, FtpClient.connect;
      split_calls; discriminate.
Qed.

(** X25: [main] returns only with code 0, and only in the iteration
    that read a line whose command is [exit]. *)
Theorem run_exit_code (n : nat) (s s' : @state W) (code : Z) :
  run C n s = Return code s' ->
  code = 0 /\ command_of (command_line s') = Some "exit".
Proof.
  revert s. induction n as [|n IH]; intros s; simpl; [discriminate|].
  destruct (step C s) as [s1|c1 s1| |] eqn:E; try discriminate.
  - apply IH.
  - intros [= <- <-]. unfold step in E.
    destruct (getline _ _) as [cin' line].
    apply dispatch_return in E as (-> & -> & arg0 & rest & E1 & E2).
    split; [reflexivity|].
    cbn [command_line]. unfold command_of. now rewrite E1, E2.
Qed.

(** X26: an input none of whose lines is the command [exit] never
    makes [main] return, however long it runs. *)
Theorem run_without_exit (n : nat) (s : @state W) :
  good (cin s) = true ->
  Forall (fun line => command_of line <> Some "exit")
         (input_lines (buffer (cin s)) "") ->
  returned (run C n s) = false.
Proof.
  intros Hg Hall.
  destruct (run C n s) as [s1|c1 s1| |] eqn:E; try reflexivity.
  exfalso. refine (no_exit_never_returns C n s Hg _ c1 s1 E).
  intros line Hin. rewrite Forall_forall in Hall. now apply Hall.
Qed.

Lemma until_newline_app (line rest cur : string) :
  Str.mem "010" line = false ->
  until_newline (line ++ String "010" rest) cur = Some (cur ++ line, rest).
Proof.
  revert cur. induction line as [|a line IH]; intros cur H; simpl.
  - now rewrite app_empty_r.
  - simpl in H. apply orb_false_elim in H as [Ha Hl].
    rewrite Ha, (IH _ Hl), sapp_assoc. reflexivity.
Qed.

(** An iteration on an input that starts with a full line. *)
Lemma step_line (s : @state W) (line rest : string) :
  cin s = mk_istream (line ++ String "010" rest) true ->
  Str.mem "010" line = false ->
  step C s
  = dispatch C (mk_state (world s) (ftp_client s) (mk_istream rest true) line
                         (out s ++ [Prompt (prompt C s)])%list)
             (split_command line).
Proof.
  intros Hc Hl. unfold step. cbn [emit cin command_line world ftp_client out].
  rewrite Hc. unfold getline. cbn [good buffer].
  rewrite (until_newline_app line rest "" Hl). reflexivity.
Qed.

(** X27: when the next line of the input is the command [exit], in any
    mix of cases and with anything after it, [main] returns 0 in that
    iteration and reads no further. *)
Theorem run_exit_line (w : W) (line rest : string) :
  Str.mem "010" line = false ->
  command_of line = Some "exit" ->
  exists s', run C 1 (start w (line ++ String "010" rest)) = Return 0 s'
             /\ cin s' = mk_istream rest true.
Proof.
  intros Hl Hc. cbn [run].
  rewrite (step_line (start w (line ++ String "010" rest)) line rest eq_refl Hl).
  unfold command_of in Hc.
  destruct (split_command line) as [|arg0 args]; [discriminate|].
  injection Hc as Hc. unfold dispatch.
  rewrite (transform_tolower_keyword _ _ Hc eq_refl). cbv zeta.
  cbn [String.eqb Ascii.eqb Bool.eqb]. eexists. split; reflexivity.
Qed.

Lemma nth_nonempty (args : list string) (n : nat) :
  Forall (fun t => t <> "") args -> (n < List.length args)%nat ->
  nth n args "" <> "".
Proof.
  intros H Hn. rewrite Forall_forall in H. apply H, nth_In, Hn.
Qed.

Lemma until_newline_all (p : ascii -> bool) (s cur line rest : string) :
  until_newline s cur = Some (line, rest) ->
  Str.all p s = true -> Str.all p cur = true ->
  Str.all p line = true /\ Str.all p rest = true.
Proof.
  revert cur. induction s as [|c s IH]; intros cur; simpl; [discriminate|].
  intros H Hs Hcur. apply andb_true_iff in Hs as [Hc Hs].
  destruct (Ascii.eqb c "010").
  - injection H as <- <-. now split.
  - apply (IH _ H Hs). rewrite all_app, Hcur. simpl. now rewrite Hc.
Qed.

Lemma getline_all (p : ascii -> bool) (i : istream) (str : string) :
  Str.all p (buffer i) = true -> Str.all p str = true ->
  Str.all p (buffer (fst (getline i str))) = true
  /\ Str.all p (snd (getline i str)) = true.
Proof.
  intros Hb Hs. unfold getline. destruct (good i); [|now split].
  destruct (until_newline (buffer i) "") as [[line rest]|] eqn:E.
  - destruct (until_newline_all p _ _ _ _ E Hb eq_refl). now split.
  - now split.
Qed.

Lemma split_from_all (p : ascii -> bool) (s item : string) :
  Str.all p s = true -> Str.all p item = true ->
  Forall (fun t => Str.all p t = true) (split_from s item).
Proof.
  revert item. induction s as [|c s IH]; intros item Hs Hi; simpl.
  - destruct item; repeat constructor. exact Hi.
  - simpl in Hs. apply andb_true_iff in Hs as [Hc Hs].
    destruct (Conv.isspace c).
    + destruct item; [now apply IH|].
      constructor; [exact Hi | now apply IH].
    + apply IH; [exact Hs|]. rewrite all_app, Hi. simpl. now rewrite Hc.
Qed.

(** With a base that ends with a separator, and arguments that are not
    empty and hold no byte of 0x80 or more, no command has undefined
    behaviour, and the base ends with a separator afterwards. *)
Lemma dispatch_connected (s : @state W) (args : list string) :
  Forall (fun t => t <> "") args ->
  Forall (fun t => Str.all Conv.isascii t = true) args ->
  Str.back (FtpClient.base_url (ftp_client s)) = Ok "/"%char ->
  match dispatch C s args with
  | Continue s' => Str.back (FtpClient.base_url (ftp_client s')) = Ok "/"%char
  | UB => False
  | _ => True
  end.
Proof.
  intros Hargs Hascii Hinv. unfold dispatch.
  destruct args as [|arg0 rest]; [exact Hinv|].
  rewrite transform_tolower_spec.
  inversion Hascii as [|? ? Ha0 _]; subst. rewrite Ha0. cbv zeta.
  destruct (String.eqb (lower_string arg0) "exit"); [exact I|].
  destruct (String.eqb (lower_string arg0) "help"); [exact Hinv|].
  destruct (String.eqb (lower_string arg0) "connect").
  { destruct (2 <=? List.length (arg0 :: rest))%nat eqn:E2; [|exact Hinv].
    apply Nat.leb_le in E2.
    pose proof (nth_nonempty (arg0 :: rest) 1 Hargs E2) as Hurl.
    unfold FtpClient.connect, arg.
    destruct (ensure_total _ Hurl) as [u Hu]. rewrite Hu. simpl.
    eapply ensure_back; eauto. }
  destruct (String.eqb (lower_string arg0) "ls"
            || String.eqb (lower_string arg0) "dir").
  { unfold ftp_list_directory.
    destruct (curl_list C _ _) as [w' [data|]]; [|exact Hinv].
    pose proof (print_lines_count (lines data)) as Hp. cbn zeta in Hp.
    unfold FtpClient.list_rows.
    destruct (FtpClient.print_lines (lines data)) as [rows r].
    cbn [snd] in Hp. destruct Hp as [[-> _]|[-> _]]; simpl; auto. }
  destruct (String.eqb (lower_string arg0) "cd").
  { destruct (List.length (arg0 :: rest) =? 2)%nat; [|exact Hinv].
    destruct (change_directory_keeps_slash (ftp_client s) (arg (arg0 :: rest) 1)
                Hinv) as [f [-> Hf]].
    cbn [bind run_result].
    destruct (FtpClient.change_directory_quiet _ _); exact Hf. }
  unfold full_url. rewrite (ensure_kept _ Hinv). cbn [bind run_result].
  unfold remote_call, local_call, local_list_directory.
  split_ifs; split_calls; exact Hinv.
Qed.

Lemma step_connected (s : @state W) :
  Str.back (FtpClient.base_url (ftp_client s)) = Ok "/"%char ->
  Str.all Conv.isascii (buffer (cin s)) = true ->
  Str.all Conv.isascii (command_line s) = true ->
  match step C s with
  | Continue s' =>
      Str.back (FtpClient.base_url (ftp_client s')) = Ok "/"%char
      /\ Str.all Conv.isascii (buffer (cin s')) = true
      /\ Str.all Conv.isascii (command_line s') = true
  | UB => False
  | _ => True
  end.
Proof.
  intros Hinv Hb Hl. unfold step.
  cbn [emit cin command_line world ftp_client out].
  destruct (getline_all Conv.isascii (cin s) (command_line s) Hb Hl)
    as [Hb' Hl'].
  destruct (getline (cin s) (command_line s)) as [cin' line].
  cbn [fst snd] in Hb', Hl'.
  match goal with |- context [dispatch C ?s0 ?a] =>
    pose proof (dispatch_inv C s0 a) as Hi;
    pose proof (dispatch_connected s0 a) as Hc;
    destruct (dispatch C s0 a) as [s1|c1 s1| |]
  end; try exact I.
  - cbn [cin command_line] in Hi. destruct Hi as [-> ->].
    split; [|now split]. apply Hc; [| |exact Hinv].
    + eapply Forall_impl; [|apply split_from_tokens; reflexivity].
      intros t [Hne _]. exact Hne.
    + now apply split_from_all.
  - apply Hc; [| |exact Hinv].
    + eapply Forall_impl; [|apply split_from_tokens; reflexivity].
      intros t [Hne _]. exact Hne.
    + now apply split_from_all.
Qed.

Lemma run_connected_inv (n : nat) (s : @state W) :
  Str.back (FtpClient.base_url (ftp_client s)) = Ok "/"%char ->
  Str.all Conv.isascii (buffer (cin s)) = true ->
  Str.all Conv.isascii (command_line s) = true ->
  is_ub (run C n s) = false
  /\ match run C n s with
     | Continue s' =>
         Str.back (FtpClient.base_url (ftp_client s')) = Ok "/"%char
     | _ => True
     end.
Proof.
  revert s. induction n as [|n IH]; intros s Hinv Hb Hl; simpl; [now split|].
  pose proof (step_connected s Hinv Hb Hl) as H.
  destruct (step C s) as [s1|c1 s1| |]; simpl; auto.
  - destruct H as (H1 & H2 & H3). now apply IH.
  - contradiction.
Qed.

(** X28: once the base ends with a separator, as after any [connect],
    no input of bytes below 0x80 leads [main] into undefined behaviour,
    and the base ends with a separator for as long as the loop runs.
    (A byte of 0x80 or more in a command word is undefined in
    [::tolower].) *)
Theorem run_connected (n : nat) (s : @state W) :
  Str.back (FtpClient.base_url (ftp_client s)) = Ok "/"%char ->
  Str.all Conv.isascii (buffer (cin s)) = true ->
  Str.all Conv.isascii (command_line s) = true ->
  is_ub (run C n s) = false
  /\ match run C n s with
     | Continue s' =>
         Str.back (FtpClient.base_url (ftp_client s')) = Ok "/"%char
     | _ => True
     end.
Proof. apply run_connected_inv. Qed.

(** X30: a session of bytes below 0x80 whose first line is [connect]
    with a URL, and possibly more words, has no undefined behaviour,
    whatever is typed after it and however long it runs. *)
Theorem run_connect_first (n : nat) (w : W) (url rest : string)
        (more : list string) :
  Forall (Regex.run_of Regex.non_space) (url :: more) ->
  Str.all Conv.isascii
          (String.concat " " ("connect" :: url :: more) ++ String "010" rest)
  = true ->
  is_ub (run C n
           (start w (String.concat " " ("connect" :: url :: more)
                       ++ String "010" rest)))
  = false.
Proof.
  intros Htok Hascii. destruct n as [|n]; [reflexivity|]. cbn [run].
  assert (Hall : Forall (Regex.run_of Regex.non_space)
                        ("connect" :: url :: more)).
  { constructor; [split; [discriminate | reflexivity] | exact Htok]. }
  rewrite (step_line
             (start w (String.concat " " ("connect" :: url :: more)
                         ++ String "010" rest))
             (String.concat " " ("connect" :: url :: more)) rest eq_refl
             (concat_no_newline _ Hall)).
  unfold split_command. rewrite (split_from_concat _ Hall).
  inversion Htok as [|? ? [Hne _] _]; subst.
  destruct (ensure_total url Hne) as [u Hu].
  assert (E : forall s0 : @state W,
             dispatch C s0 ("connect" :: url :: more)
             = Continue
                 (emit (BaseUrl u)
                    (set_client
                       (FtpClient.mk u
                          (if (3 <=? List.length ("connect" :: url :: more))%nat
                           then arg ("connect" :: url :: more) 2 else ""))
                       s0))).
  { intros s0. unfold dispatch, FtpClient.connect.
    change (transform_tolower "connect") with (@Ok string "connect").
    cbv zeta.
    cbn [String.eqb Ascii.eqb Bool.eqb List.length Nat.leb].
    unfold arg at 1. cbn [nth]. rewrite Hu. reflexivity. }
  rewrite E.
  rewrite all_app in Hascii. apply andb_true_iff in Hascii as [Hline Hrest].
  cbn [Str.all] in Hrest. apply andb_true_iff in Hrest as [_ Hrest].
  apply run_connected_inv;
    cbn [ftp_client emit set_client FtpClient.base_url cin command_line buffer].
  - eapply ensure_back; eauto.
  - exact Hrest.
  - exact Hline.
Qed.

End SessionMore.

(** ** A whole session against a recording server *)

Section RecordedSession.

Import Shell.

Lemma dispatch_connect {W : Type} (C : collaborators W) (s : @state W)
      (url userpass : string) :
  dispatch C s ["connect"; url; userpass]
  = run_result
      (f <- FtpClient.connect (ftp_client s) url userpass ;;
       Ok (emit (BaseUrl (FtpClient.base_url f)) (set_client f s))).
Proof. reflexivity. Qed.

Lemma dispatch_cd {W : Type} (C : collaborators W) (s : @state W)
      (dir_name : string) :
  dispatch C s ["cd"; dir_name]
  = run_result
      (f <- FtpClient.change_directory (ftp_client s) dir_name ;;
       Ok (if FtpClient.change_directory_quiet (ftp_client s) dir_name
           then set_client f s
           else emit (BaseUrl (FtpClient.base_url f)) (set_client f s))).
Proof. reflexivity. Qed.

Lemma dispatch_ls {W : Type} (C : collaborators W) (s : @state W) :
  dispatch C s ["ls"] = ftp_list_directory C s.
Proof. reflexivity. Qed.

(** X29: end to end.  For any URL, credentials and directory name
    typed as [connect url user:pass], [cd name], [ls], the one listing
    request the server receives is for the URL with a separator after
    it (added if it had none), then the name, then a separator; the
    client holds that base and those credentials. *)
Theorem connect_cd_ls_requests
        (url userpass dir_name rest : string) (c c' : ascii) :
  Regex.run_of Regex.non_space url ->
  Regex.run_of Regex.non_space userpass ->
  Regex.run_of Regex.non_space dir_name ->
  Str.back url = Ok c ->
  Str.back dir_name = Ok c' -> c' <> "/"%char ->
  dir_name <> ".." ->
  let base :=
    (if Ascii.eqb c "/" then url else url ++ "/") ++ dir_name ++ "/" in
  let input :=
    String.concat " " ["connect"; url; userpass] ++ String "010"
      (String.concat " " ["cd"; dir_name] ++ String "010"
         ("ls" ++ String "010" rest)) in
  exists s',
    run recording 3 (start [] input) = Continue s'
    /\ world s' = [base]
    /\ ftp_client s' = FtpClient.mk base userpass
    /\ cin s' = mk_istream rest true.
Proof.
  intros Hurl Hup Hdir Hc Hc' Hns Hdd base input.
  assert (Tc : Regex.run_of Regex.non_space "connect")
    by (split; [discriminate | reflexivity]).
  assert (Td : Regex.run_of Regex.non_space "cd")
    by (split; [discriminate | reflexivity]).
  set (u0 := if Ascii.eqb c "/" then url else url ++ "/").
  assert (Hu0 : FtpClient.ensure_trailing_slash url = Ok u0).
  { unfold u0. destruct (Ascii.eqb_spec c "/") as [->|Hn].
    - now apply ensure_kept.
    - now apply (ensure_added url c). }
  assert (Hb0 : Str.back u0 = Ok "/"%char) by (eapply ensure_back; eauto).
  assert (Hl1 : Str.mem "010" (String.concat " " ["connect"; url; userpass])
                = false).
  { cbn [String.concat]. rewrite !mem_app.
    rewrite (token_no_newline url), (token_no_newline userpass);
      [reflexivity | apply Hup | apply Hurl]. }
  assert (Hl2 : Str.mem "010" (String.concat " " ["cd"; dir_name]) = false).
  { cbn [String.concat]. rewrite !mem_app.
    rewrite (token_no_newline dir_name); [reflexivity | apply Hdir]. }
  cbn [run].
  (* connect *)
  match goal with |- context [step recording ?s] =>
    rewrite (step_line recording s
               (String.concat " " ["connect"; url; userpass])
               (String.concat " " ["cd"; dir_name] ++ String "010"
                  ("ls" ++ String "010" rest)) eq_refl Hl1)
  end.
  unfold split_command at 1.
  rewrite (split_from_concat ["connect"; url; userpass])
    by (apply Forall_cons; [exact Tc|]; apply Forall_cons; [exact Hurl|];
        apply Forall_cons; [exact Hup | apply Forall_nil]).
  rewrite dispatch_connect. unfold FtpClient.connect.
  cbn [ftp_client start]. rewrite Hu0. cbn [bind run_result].
  (* cd *)
  match goal with |- context [step recording ?s] =>
    rewrite (step_line recording s (String.concat " " ["cd"; dir_name])
               ("ls" ++ String "010" rest) eq_refl Hl2)
  end.
  unfold split_command at 1.
  rewrite (split_from_concat ["cd"; dir_name])
    by (apply Forall_cons; [exact Td|]; apply Forall_cons;
        [exact Hdir | apply Forall_nil]).
  rewrite dispatch_cd.
  unfold FtpClient.change_directory, FtpClient.change_directory_quiet.
  cbn [ftp_client set_client emit FtpClient.base_url FtpClient.user_password].
  apply String.eqb_neq in Hdd. rewrite Hdd. cbn [andb].
  rewrite (ensure_kept _ Hb0). cbn [bind].
  rewrite (ensure_added (u0 ++ dir_name) c');
    [|rewrite back_app; [exact Hc' | apply Hdir] | exact Hns].
  cbn [bind run_result].
  (* ls *)
  match goal with |- context [step recording ?s] =>
    rewrite (step_line recording s "ls" rest eq_refl eq_refl)
  end.
  change (split_command "ls") with ["ls"].
  rewrite dispatch_ls. unfold ftp_list_directory.
  cbn [ftp_client set_client emit FtpClient.base_url world recording
       curl_list set_world app].
  eexists. split; [reflexivity|].
  cbn [world ftp_client cin emit set_world set_client].
  unfold base. fold u0. rewrite sapp_assoc. repeat split.
Qed.

End RecordedSession.

Lemma connect_cd_ls_requests_witness :
  let base :=
    (if Ascii.eqb "m" "/" then "ftp://demo.wftpserver.com"
     else "ftp://demo.wftpserver.com" ++ "/") ++ "upload" ++ "/" in
  let input :=
    String.concat " " ["connect"; "ftp://demo.wftpserver.com"; "demo:demo"]
      ++ String "010"
      (String.concat " " ["cd"; "upload"] ++ String "010"
         ("ls" ++ String "010" "exit")) in
  exists s',
    Shell.run Shell.recording 3 (Shell.start [] input) = Shell.Continue s'
    /\ Shell.world s' = [base]
    /\ Shell.ftp_client s' = FtpClient.mk base "demo:demo"
    /\ Shell.cin s' = Shell.mk_istream "exit" true.
Proof.
  apply (connect_cd_ls_requests "ftp://demo.wftpserver.com" "demo:demo"
           "upload" "exit" "m" "d");
    try (split; [discriminate | reflexivity]);
    try reflexivity; discriminate.
Defined.

Lemma run_exit_code_witness :
  0 = 0 /\ Shell.command_of
             (Shell.command_line
                (Shell.mk_state tt FtpClient.init (Shell.mk_istream "" false)
                   "EXIT"
                   [Shell.Help;
                    Shell.Prompt (String "010" "local:user | remote:> ");
                    Shell.Help;
                    Shell.Prompt (String "010" "local:user | remote:> ")]))
           = Some "exit".
Proof.
  apply (run_exit_code Shell.idle 3
           (Shell.start tt ("help" ++ String "010" "EXIT"))).
  vm_compute. reflexivity.
Defined.

Lemma run_without_exit_witness :
  Shell.returned
    (Shell.run Shell.idle 7
       (Shell.start tt ("help" ++ String "010" ("lls" ++ String "010" "quit"))))
  = false.
Proof.
  apply (run_without_exit Shell.idle 7
           (Shell.start tt ("help" ++ String "010" ("lls" ++ String "010" "quit")))).
  - reflexivity.
  - repeat constructor; vm_compute; discriminate.
Defined.

Lemma run_exit_line_witness :
  exists s',
    Shell.run Shell.idle 1
              (Shell.start tt ("  Exit now" ++ String "010" "ls"))
    = Shell.Return 0 s'
    /\ Shell.cin s' = Shell.mk_istream "ls" true.
Proof.
  apply (run_exit_line Shell.idle tt "  Exit now" "ls"); reflexivity.
Defined.

Lemma run_connect_first_witness :
  Shell.is_ub
    (Shell.run (Shell.serving "") 6
       (Shell.start tt
          (String.concat " " ("connect" :: "ftp://host" :: ["u:p"])
             ++ String "010"
             ("get a b" ++ String "010" ("cd x" ++ String "010" "rm x 1")))))
  = false.
Proof.
  apply (run_connect_first (Shell.serving "") 6 tt "ftp://host"
           ("get a b" ++ String "010" ("cd x" ++ String "010" "rm x 1"))
           ["u:p"]).
  - repeat (constructor; [split; [discriminate | reflexivity]|]).
    constructor.
  - reflexivity.
Defined.

Lemma run_connected_witness :
  let s := Shell.mk_state tt (FtpClient.mk "ftp://host/" "")
             (Shell.mk_istream
                ("cd pub" ++ String "010"
                   ("mkdir new" ++ String "010" ("cd .." ++ String "010" "")))
                true) "" [] in
  Shell.is_ub (Shell.run (Shell.serving "") 5 s) = false
  /\ match Shell.run (Shell.serving "") 5 s with
     | Shell.Continue s' =>
         Str.back (FtpClient.base_url (Shell.ftp_client s')) = Ok "/"%char
     | _ => True
     end.
Proof.
  apply (run_connected (Shell.serving "") 5
           (Shell.mk_state tt (FtpClient.mk "ftp://host/" "")
              (Shell.mk_istream
                 ("cd pub" ++ String "010"
                    ("mkdir new" ++ String "010" ("cd .." ++ String "010" "")))
                 true) "" [])); reflexivity.
Defined.

Lemma dispatch_usage_witness :
  Shell.dispatch Shell.idle (Shell.start tt "") ["CD"; "a"; "b"]
  = Shell.Continue
      (Shell.emit (Shell.Usage (Shell.lower_string "CD"))
                  (Shell.start tt "")).
Proof.
  apply (dispatch_usage Shell.idle (Shell.start tt "") "CD" ["a"; "b"]
                        (fun n => (n =? 2)%nat)); reflexivity.
Defined.

Lemma dispatch_nullary_witness :
  Shell.dispatch Shell.idle (Shell.start tt "") ["Exit"; "now"; "please"]
  = Shell.dispatch Shell.idle (Shell.start tt "") ["Exit"].
Proof.
  apply (dispatch_nullary Shell.idle (Shell.start tt "") "Exit"
                          ["now"; "please"]).
  reflexivity.
Defined.

Lemma dispatch_keeps_client_witness :
  Shell.ftp_client
    (Shell.emit (Shell.Status true)
       (Shell.mk_state tt (FtpClient.mk "ftp://host/" "u:p")
                       (Shell.mk_istream "" true) "" []))
  = Shell.ftp_client
      (Shell.mk_state tt (FtpClient.mk "ftp://host/" "u:p")
                      (Shell.mk_istream "" true) "" []).
Proof.
  apply (dispatch_keeps_client (Shell.serving "")
           (Shell.mk_state tt (FtpClient.mk "ftp://host/" "u:p")
                           (Shell.mk_istream "" true) "" [])
           _ "mkdir" ["pub"]).
  - discriminate.
  - discriminate.
  - reflexivity.
Defined.
